(** * scripts/check_e2e_tests_are_captured_in_ci.py

    A shallow embedding of the script that checks that [.travis.yml] and
    [core/tests/protractor.conf.js] list the same end-to-end test suites,
    and the properties of its three extractors and of [main].

    Text is a byte string (the script is Python 2: [str] is [bytes]), held
    as a [string] of 8-bit characters.  Exceptions are values of [exn];
    a call that may raise returns a [result]. *)

From Stdlib Require Import Bool Arith Lia List String Ascii.
From Stdlib Require Import Sorting.Sorted Sorting.Permutation.
From Stdlib Require Import Classes.RelationClasses Structures.OrdersEx.
Import ListNotations.

Local Open Scope list_scope.
Local Open Scope string_scope.

(** ** Byte strings *)

Module Str.

(** The double quote, which delimits the [--suite=] argument. *)
Definition dquote : ascii := "034".
Definition newline : ascii := "010".

Definition in_range (lo hi c : ascii) : bool :=
  Ascii.leb lo c && Ascii.leb c hi.

Definition is_upper (c : ascii) : bool := in_range "A" "Z" c.
Definition is_lower (c : ascii) : bool := in_range "a" "z" c.
Definition is_digit (c : ascii) : bool := in_range "0" "9" c.

Definition to_lower (c : ascii) : ascii :=
  if is_upper c then ascii_of_nat (nat_of_ascii c + 32) else c.
Definition to_upper (c : ascii) : ascii :=
  if is_lower c then ascii_of_nat (nat_of_ascii c - 32) else c.

(** [bytes.lower()]: the ASCII letters only. *)
Fixpoint lower (s : string) : string :=
  match s with
  | EmptyString => EmptyString
  | String c s' => String (to_lower c) (lower s')
  end.

(** [bytes.title()]: a cased character is upper-cased when it follows an
    uncased one (or starts the string) and lower-cased otherwise. *)
Fixpoint title_from (previous_is_cased : bool) (s : string) : string :=
  match s with
  | EmptyString => EmptyString
  | String c s' =>
      if is_lower c || is_upper c
      then String (if previous_is_cased then to_lower c else to_upper c)
                  (title_from true s')
      else String c (title_from false s')
  end.
Definition title (s : string) : string := title_from false s.

(** [s.split(sep)] for a one-character separator: the pieces between the
    separators, so one more piece than there are separators.  The piece
    being read is [cur]. *)
Fixpoint split_from (sep : ascii) (cur : string) (s : string) : list string :=
  match s with
  | EmptyString => [cur]
  | String c s' =>
      if Ascii.eqb c sep then cur :: split_from sep EmptyString s'
      else split_from sep (cur ++ String c EmptyString) s'
  end.
Definition split (sep : ascii) (s : string) : list string :=
  split_from sep EmptyString s.

(** Every character of [s] satisfies [p]. *)
Fixpoint all (p : ascii -> bool) (s : string) : bool :=
  match s with
  | EmptyString => true
  | String c s' => p c && all p s'
  end.

(** [sub] occurs in [s]. *)
Definition occurs (sub s : string) : Prop :=
  exists pre post, s = pre ++ sub ++ post.

(** The character before the end of [s], where [prev] is the one before
    its start. *)
Fixpoint last_char (prev : option ascii) (s : string) : option ascii :=
  match s with
  | EmptyString => prev
  | String c s' => last_char (Some c) s'
  end.

Definition first_char (s : string) : option ascii :=
  match s with
  | EmptyString => None
  | String c _ => Some c
  end.

(** [sorted(l)] on a list of byte strings: ascending in the byte-wise
    lexicographic order.  The order is total and antisymmetric, so the
    sorted list is unique and insertion gives it. *)
Fixpoint insert (x : string) (l : list string) : list string :=
  match l with
  | [] => [x]
  | y :: l' => if String.leb x y then x :: l else y :: insert x l'
  end.
Fixpoint sorted (l : list string) : list string :=
  match l with
  | [] => []
  | x :: l' => insert x (sorted l')
  end.

(** The order of [sorted]. *)
Definition le (a b : string) : Prop := String.leb a b = true.

End Str.

(** ** The fragment of [re] the script uses

    A compiled pattern is a sequence of operations as in [sre]: a single
    character test, a greedy repeat of one, the word boundary, and the two
    marks of the capturing group.  Each of the script's patterns has exactly
    one group, which is what [findall] then returns. *)

Module Re.

Inductive chr_op : Type :=
| LITERAL (c : ascii)
| ANY
| IN (negate : bool) (ranges : list (ascii * ascii)).

Inductive op : Type :=
| ONE (c : chr_op)
| MAX_REPEAT (min : nat) (c : chr_op)
| AT_BOUNDARY
| MARK (close : bool).

Definition pattern := list op.

Definition chr_matches (o : chr_op) (c : ascii) : bool :=
  match o with
  | LITERAL l => Ascii.eqb l c
  | ANY => negb (Ascii.eqb c Str.newline)
  | IN negate ranges =>
      xorb negate (existsb (fun r => Str.in_range (fst r) (snd r) c) ranges)
  end.

(** [\w] without the LOCALE and UNICODE flags. *)
Definition is_word (c : option ascii) : bool :=
  match c with
  | None => false
  | Some c =>
      Str.is_lower c || Str.is_upper c || Str.is_digit c || Ascii.eqb c "_"
  end.

(** What a match attempt has read so far: how many characters, whether the
    group is open, and the group's text. *)
Record mstate : Type := MState
  { consumed : nat; capturing : bool; captured : string }.

Definition init : mstate := MState 0 false EmptyString.

Definition read (c : ascii) (st : mstate) : mstate :=
  MState (S (consumed st)) (capturing st)
         (if capturing st then captured st ++ String c EmptyString
          else captured st).

Fixpoint reads (s : string) (st : mstate) : mstate :=
  match s with
  | EmptyString => st
  | String c s' => reads s' (read c st)
  end.

Definition mark (close : bool) (st : mstate) : mstate :=
  if close then MState (consumed st) false (captured st)
  else MState (consumed st) true EmptyString.

(** One match attempt at a fixed position: [prev] is the character before
    the position, [s] the text from it.  The result is the group and the
    length of the match.  The repeat is greedy: it reads as many
    characters as it can and gives them back one at a time while the rest
    of the pattern fails. *)
Fixpoint match_here (p : pattern)
  : option ascii -> string -> mstate -> option (string * nat) :=
  match p with
  | [] => fun _ _ st => Some (captured st, consumed st)
  | ONE o :: p' => fun _ s st =>
      match s with
      | String c s' =>
          if chr_matches o c then match_here p' (Some c) s' (read c st)
          else None
      | EmptyString => None
      end
  | AT_BOUNDARY :: p' => fun prev s st =>
      if xorb (is_word prev) (is_word (Str.first_char s))
      then match_here p' prev s st else None
  | MARK close :: p' => fun prev s st => match_here p' prev s (mark close st)
  | MAX_REPEAT min o :: p' =>
      (fix rep (min : nat) (prev : option ascii) (s : string)
              (st : mstate) {struct s} : option (string * nat) :=
        let stop := match min with
                    | 0 => match_here p' prev s st
                    | S _ => None
                    end in
        match s with
        | String c s' =>
            if chr_matches o c then
              match rep (pred min) (Some c) s' (read c st) with
              | Some r => Some r
              | None => stop
              end
            else stop
        | EmptyString => stop
        end) min
  end.

(** [pattern.findall(s)] for a pattern with one group: the text is scanned
    from left to right; at each position not inside the previous match one
    attempt is made, and a match gives its group and sends the scan to its
    end (one character further when the match is empty).  [skip] counts
    the characters still inside the previous match. *)
Fixpoint findall_from (p : pattern) (skip : nat) (prev : option ascii)
                      (s : string) {struct s} : list string :=
  let here := match skip with
              | 0 => match_here p prev s init
              | S _ => None
              end in
  let found := match here with
               | Some (g, _) => [g]
               | None => []
               end in
  let skip' := match skip, here with
               | S k, _ => k
               | 0, Some (_, n) => pred n
               | 0, None => 0
               end in
  match s with
  | EmptyString => found
  | String c s' => (found ++ findall_from p skip' (Some c) s')%list
  end.

Definition findall (p : pattern) (s : string) : list string :=
  findall_from p 0 None s.

(** The characters of a literal run of the pattern. *)
Fixpoint literals (s : string) : pattern :=
  match s with
  | EmptyString => []
  | String c s' => ONE (LITERAL c) :: literals s'
  end.

End Re.

(** ** Exceptions *)

Inductive exn : Type :=
| IOError
| YAMLError
| KeyError (key : string)
| TypeError
| IndexError
| ValueError
| Exception_ (message : string).

Definition result (A : Type) : Type := (exn + A)%type.

Definition raise {A : Type} (e : exn) : result A := inl e.
Definition ret {A : Type} (x : A) : result A := inr x.
Definition bind {A B : Type} (m : result A) (k : A -> result B) : result B :=
  match m with
  | inl e => inl e
  | inr x => k x
  end.

Notation "x <- m ;; k" := (bind m (fun x => k))
  (at level 61, m at next level, right associativity).

(** ** Python lists of suite names *)

(** [l.remove(x)]: the first element equal to [x] is deleted; [ValueError]
    when there is none. *)
Fixpoint list_remove (x : string) (l : list string) : result (list string) :=
  match l with
  | [] => raise ValueError
  | y :: l' =>
      if String.eqb y x then ret l'
      else l'' <- list_remove x l' ;; ret (y :: l'')
  end.

(** [x in l]. *)
Definition list_contains (x : string) (l : list string) : bool :=
  existsb (String.eqb x) l.

(** [l1 == l2]. *)
Fixpoint list_eq (l1 l2 : list string) : bool :=
  match l1, l2 with
  | [], [] => true
  | x :: l1', y :: l2' => String.eqb x y && list_eq l1' l2'
  | _, _ => false
  end.

(** [l[0]]. *)
Definition first_item {A : Type} (l : list A) : result A :=
  match l with
  | [] => raise IndexError
  | x :: _ => ret x
  end.

(** ** The parsed travis file *)

#[local] Unset Elimination Schemes.
Inductive yaml : Type :=
| YStr (s : string)
| YSeq (items : list yaml)
| YMap (entries : list (string * yaml)).
#[local] Set Elimination Schemes.

Fixpoint lookup (key : string) (entries : list (string * yaml)) : option yaml :=
  match entries with
  | [] => None
  | (k, v) :: entries' => if String.eqb k key then Some v else lookup key entries'
  end.

(** [v[key]] for a string key: a mapping without the key raises [KeyError],
    a value that is no mapping raises [TypeError]. *)
Definition getitem (v : yaml) (key : string) : result yaml :=
  match v with
  | YMap entries =>
      match lookup key entries with
      | Some x => ret x
      | None => raise (KeyError key)
      end
  | _ => raise TypeError
  end.

(** [os.path.join(a, b)] on POSIX. *)
Definition path_join (a b : string) : string :=
  match Str.first_char b, Str.last_char None a with
  | Some "/"%char, _ => b
  | _, None => b
  | _, Some "/"%char => a ++ b
  | _, Some _ => a ++ "/" ++ b
  end.

(** ** The script *)

Definition TEST_SUITES_NOT_RUN_ON_TRAVIS : list string :=
  ["full"; "classroomPageFileUploadFeatures"; "fileUploadFeatures";
   "topicAndStoryEditorFileUploadFeatures"].

Definition SAMPLE_TEST_SUITE_THAT_IS_KNOWN_TO_EXIST : string :=
  "explorationImprovementsTab".

(** The three character sets of the patterns: [A-Z_], [a-zA-Z_-] and
    everything but the closing brace. *)
Definition upper_snake : Re.chr_op :=
  Re.IN false [("A", "Z"); ("_", "_")]%char.
Definition suite_name : Re.chr_op :=
  Re.IN false [("a", "z"); ("A", "Z"); ("_", "_"); ("-", "-")]%char.
Definition not_closing_brace : Re.chr_op :=
  Re.IN true [("}", "}")]%char.

(** [test_regex]: the literal [RUN_E2E_TESTS_], a group of any number of
    [A-Z_], and [=]. *)
Definition test_regex : Re.pattern :=
  (Re.literals "RUN_E2E_TESTS_" ++
   [Re.MARK false; Re.MAX_REPEAT 0 upper_snake; Re.MARK true;
    Re.ONE (Re.LITERAL "=")])%list.

(** [e2e_test_suite_regex]: [bash scripts/run_e2e_tests.sh --suite=], a
    double quote, a group of any number of [a-zA-Z_-], and a double quote.
    The dot of [.sh] is not escaped in the source, so it stands for any
    character but a newline. *)
Definition e2e_test_suite_regex : Re.pattern :=
  (Re.literals "bash scripts/run_e2e_tests" ++
   Re.ONE Re.ANY ::
   Re.literals "sh --suite=" ++
   [Re.ONE (Re.LITERAL Str.dquote);
    Re.MARK false; Re.MAX_REPEAT 0 suite_name; Re.MARK true;
    Re.ONE (Re.LITERAL Str.dquote)])%list.

(** The first pattern of the protractor extractor: [suites = {], a group of
    one or more characters other than the closing brace, and that brace. *)
Definition suite_object_regex : Re.pattern :=
  (Re.literals "suites = {" ++
   [Re.MARK false; Re.MAX_REPEAT 1 not_closing_brace; Re.MARK true;
    Re.ONE (Re.LITERAL "}")])%list.

(** [key_regex]: a word boundary, a group of any number of [a-zA-Z_-], and
    a colon. *)
Definition key_regex : Re.pattern :=
  [Re.AT_BOUNDARY;
   Re.MARK false; Re.MAX_REPEAT 0 suite_name; Re.MARK true;
   Re.ONE (Re.LITERAL ":")].

(** What the script takes from outside: the working directory, read with
    [os.getcwd()], and the functions of [python_utils] and [utils], which
    are not under src/.  [open_file_read path] stands for
    [python_utils.open_file(path, 'r').read()]. *)
Record imports : Type := Imports
  { getcwd : string;
    open_file_read : string -> result string;
    dict_from_yaml : string -> result yaml;
    convert_to_bytes : yaml -> string;
    snake_case_to_camel_case : string -> string }.

Section Script.

Variable py : imports.

Definition TRAVIS_CI_FILE_PATH : string := path_join (getcwd py) ".travis.yml".
Definition PROTRACTOR_CONF_FILE_PATH : string :=
  path_join (path_join (path_join (getcwd py) "core") "tests")
            "protractor.conf.js".

Definition read_protractor_conf_file : result string :=
  open_file_read py PROTRACTOR_CONF_FILE_PATH.

Definition read_and_parse_travis_yml_file : result yaml :=
  travis_ci_file_content <- open_file_read py TRAVIS_CI_FILE_PATH ;;
  dict_from_yaml py travis_ci_file_content.

Definition get_e2e_suite_names_from_jobs_travis_yml_file
  : result (list string) :=
  travis_file_content <- read_and_parse_travis_yml_file ;;
  env <- getitem travis_file_content "env" ;;
  jobs <- getitem env "jobs" ;;
  let jobs_str := convert_to_bytes py jobs in
  let jobs := Re.findall test_regex jobs_str in
  let suites_from_jobs :=
    map (fun job => snake_case_to_camel_case py (Str.lower job)) jobs in
  ret (Str.sorted suites_from_jobs).

Definition get_e2e_suite_names_from_script_travis_yml_file
  : result (list string) :=
  travis_file_content <- read_and_parse_travis_yml_file ;;
  script <- getitem travis_file_content "script" ;;
  let script_str := convert_to_bytes py script in
  let suites_list := Re.findall e2e_test_suite_regex script_str in
  ret (Str.sorted suites_list).

Definition get_e2e_suite_names_from_protractor_file
  : result (list string) :=
  protractor_config_file_content <- read_protractor_conf_file ;;
  suite_object_string <-
    first_item (Re.findall suite_object_regex protractor_config_file_content) ;;
  let protractor_suites := Re.findall key_regex suite_object_string in
  ret (Str.sorted protractor_suites).

End Script.

(** The loop of [main] that takes the suites of
    [TEST_SUITES_NOT_RUN_ON_TRAVIS] out of the protractor list. *)
Fixpoint remove_each (excluded : list string) (l : list string)
  : result (list string) :=
  match excluded with
  | [] => ret l
  | excluded_test :: excluded' =>
      l' <- list_remove excluded_test l ;; remove_each excluded' l'
  end.

Definition check (ok : bool) (message : string) : result unit :=
  if ok then ret tt else raise (Exception_ message).

(** The body of [main] from the removal loop to the last check, on the three
    lists the extractors returned. *)
Definition main_checks (protractor_test_suites yaml_jobs yaml_scripts : list string)
  : result unit :=
  protractor_test_suites <-
    remove_each TEST_SUITES_NOT_RUN_ON_TRAVIS protractor_test_suites ;;
  _ <- check (negb (list_eq yaml_jobs []))
    ("The e2e test suites that have been extracted from " ++
     "jobs section from travis.ci are empty.") ;;
  _ <- check (negb (list_eq yaml_scripts []))
    ("The e2e test suites that have been extracted from " ++
     "script section from travis.ci are empty.") ;;
  _ <- check (negb (list_eq protractor_test_suites []))
    ("The e2e test suites that have been extracted from " ++
     "protractor.conf.js are empty.") ;;
  _ <- check (list_contains SAMPLE_TEST_SUITE_THAT_IS_KNOWN_TO_EXIST yaml_jobs)
    ("explorationImprovementsTab is expected to be in " ++
     "the e2e test suites extracted from the jobs section " ++
     "of .travis.yml file, but it is missing.") ;;
  _ <- check (list_contains SAMPLE_TEST_SUITE_THAT_IS_KNOWN_TO_EXIST yaml_scripts)
    ("explorationImprovementsTab is expected to be in " ++
     "the e2e test suites extracted from the script section " ++
     "of .travis.yml file, but it is missing.") ;;
  _ <- check (list_contains SAMPLE_TEST_SUITE_THAT_IS_KNOWN_TO_EXIST
                            protractor_test_suites)
    ("explorationImprovementsTab is expected to be in " ++
     "the e2e test suites extracted from the " ++
     "protractor.conf.js file, but it is missing.") ;;
  check (list_eq protractor_test_suites yaml_jobs && list_eq yaml_jobs yaml_scripts)
    "Protractor test suites and Travis Ci test suites are not in sync.".

(** [main()]: the lines printed and how the run ends. *)
Definition main (py : imports) : list string * result unit :=
  let stdout := ["Checking e2e tests are captured in travis.yml..."] in
  let run :=
    protractor_test_suites <- get_e2e_suite_names_from_protractor_file py ;;
    yaml_jobs <- get_e2e_suite_names_from_jobs_travis_yml_file py ;;
    yaml_scripts <- get_e2e_suite_names_from_script_travis_yml_file py ;;
    main_checks protractor_test_suites yaml_jobs yaml_scripts in
  match run with
  | inl e => (stdout, inl e)
  | inr tt => ((stdout ++ ["Done!"])%list, inr tt)
  end.

(** ** The text of a [suites] object

    What the protractor extractor is meant to read: [suites = {], the body
    of the object, and the closing brace.  The body of an object with the
    keys of [entries] is, for each entry, the text before the key (blank
    space, the value of the previous key, a comma), the key and a colon, and
    after the last colon the text [tail]. *)
Definition object_body (entries : list (string * string)) (tail : string)
  : string :=
  fold_right (fun entry rest => fst entry ++ snd entry ++ String ":" rest)
             tail entries.

(** The configuration has a [suites] object that the first pattern can
    match: the body is not empty and has no closing brace. *)
Definition has_suite_object (content : string) : Prop :=
  exists pre body post,
    content = pre ++ "suites = {" ++ body ++ String "}" post /\
    body <> "" /\
    Str.all (Re.chr_matches not_closing_brace) body = true.

(** A character of [a-zA-Z0-9_-]: one that a key or a word can go on with. *)
Definition is_ident (c : option ascii) : bool :=
  match c with
  | None => false
  | Some c => Re.chr_matches suite_name c || Str.is_digit c
  end.

(** Neither a colon nor a closing brace. *)
Definition plain (c : ascii) : bool :=
  negb (Ascii.eqb c ":") && negb (Ascii.eqb c "}").

(** The text before a key has no colon and no closing brace and does not
    end in a character of [a-zA-Z0-9_-]; the key is made of [a-zA-Z_-] and
    starts with a letter or [_]. *)
Definition gap_ok (gap : string) : bool :=
  Str.all plain gap && negb (is_ident (Str.last_char None gap)).
Definition key_ok (key : string) : bool :=
  Str.all (Re.chr_matches suite_name) key && Re.is_word (Str.first_char key).
Definition well_formed (entries : list (string * string)) (tail : string)
  : bool :=
  forallb (fun entry => gap_ok (fst entry) && key_ok (snd entry)) entries
  && Str.all plain tail.

(** ** The text of the two travis fields

    A jobs string that is made of assignments: for each entry the text
    before the assignment, [RUN_E2E_TESTS_], the name and [=], and after the
    last of them the text [tail].  A script string that is made of
    invocations, likewise, each with its quoted suite. *)
Definition jobs_text (entries : list (string * string)) (tail : string)
  : string :=
  fold_right
    (fun entry rest =>
       fst entry ++ "RUN_E2E_TESTS_" ++ snd entry ++ String "=" rest)
    tail entries.

Definition script_text (entries : list (string * string)) (tail : string)
  : string :=
  fold_right
    (fun entry rest =>
       fst entry ++ "bash scripts/run_e2e_tests.sh --suite=" ++
       String Str.dquote (snd entry ++ String Str.dquote rest))
    tail entries.

(** The messages of the exceptions of [main], written out. *)
Module Msg.

Definition jobs_empty : string :=
  "The e2e test suites that have been extracted from jobs section from travis.ci are empty.".
Definition script_empty : string :=
  "The e2e test suites that have been extracted from script section from travis.ci are empty.".
Definition protractor_empty : string :=
  "The e2e test suites that have been extracted from protractor.conf.js are empty.".
Definition jobs_sample_missing : string :=
  "explorationImprovementsTab is expected to be in the e2e test suites extracted from the jobs section of .travis.yml file, but it is missing.".
Definition script_sample_missing : string :=
  "explorationImprovementsTab is expected to be in the e2e test suites extracted from the script section of .travis.yml file, but it is missing.".
Definition protractor_sample_missing : string :=
  "explorationImprovementsTab is expected to be in the e2e test suites extracted from the protractor.conf.js file, but it is missing.".
Definition not_in_sync : string :=
  "Protractor test suites and Travis Ci test suites are not in sync.".

End Msg.

(** What [main] has printed when it raises, and when it returns. *)
Definition printed_on_error : list string :=
  ["Checking e2e tests are captured in travis.yml..."].
Definition printed_on_success : list string :=
  ["Checking e2e tests are captured in travis.yml..."; "Done!"].

(** ** [utils], for the concrete runs *)

Module Utils.

(** Modelled from the spec: [utils.snake_case_to_camel_case] is not under
    src/.  The spec says that a lower-cased upper-snake-case name is
    converted to camelCase: the name is split at the underscores and the
    pieces are joined again, each but the first in title case. *)
Definition snake_case_to_camel_case (snake_str : string) : string :=
  match Str.split "_" snake_str with
  | [] => EmptyString
  | first :: components => first ++ String.concat "" (map Str.title components)
  end.

End Utils.

(** ** A sample checkout, for the concrete runs

    The two files under [/oppia]; the travis file is parsed to a mapping
    whose [env.jobs] and [script] are strings. *)

Module Sample.

Definition read_file (protractor_conf : string) (path : string)
  : result string :=
  if String.eqb path "/oppia/.travis.yml" then ret "(the travis file)"
  else if String.eqb path "/oppia/core/tests/protractor.conf.js"
       then ret protractor_conf
       else raise IOError.

Definition travis (jobs script : string) : yaml :=
  YMap [("language", YStr "python");
        ("env", YMap [("global", YStr ""); ("jobs", YStr jobs)]);
        ("script", YStr script)].

Definition to_bytes (v : yaml) : string :=
  match v with
  | YStr s => s
  | _ => EmptyString
  end.

(** The checkout with the given protractor configuration and the given
    [env.jobs] and [script] of the travis file. *)
Definition checkout (protractor_conf jobs script : string) : imports :=
  {| getcwd := "/oppia";
     open_file_read := read_file protractor_conf;
     dict_from_yaml := fun _ => ret (travis jobs script);
     convert_to_bytes := to_bytes;
     snake_case_to_camel_case := Utils.snake_case_to_camel_case |}.

Definition quoted (s : string) : string :=
  String Str.dquote s ++ String Str.dquote EmptyString.

Definition protractor_conf : string :=
  "var suites = { classroomPageFileUploadFeatures: [...], explorationImprovementsTab: [...], fileUploadFeatures: [...], full: [...], topicAndStoryEditorFileUploadFeatures: [...] };".

Definition jobs : string :=
  "- RUN_E2E_TESTS_EXPLORATION_IMPROVEMENTS_TAB=true".

Definition script : string :=
  "- if [ $RUN_E2E_TESTS_EXPLORATION_IMPROVEMENTS_TAB == 'true' ]; then bash scripts/run_e2e_tests.sh --suite="
  ++ quoted "explorationImprovementsTab" ++ " --prod_env; fi".

End Sample.

(** Checkouts that are not in order. *)
Module Faulty.

(** The travis file parses to a mapping with an empty [env] and no
    [script]. *)
Definition without_keys : imports :=
  {| getcwd := "/oppia";
     open_file_read := fun _ => ret "";
     dict_from_yaml := fun _ => ret (YMap [("env", YMap [])]);
     convert_to_bytes := Sample.to_bytes;
     snake_case_to_camel_case := Utils.snake_case_to_camel_case |}.

(** The protractor file has no [suites] object, and the travis file cannot
    be read. *)
Definition without_object : imports :=
  {| getcwd := "/oppia";
     open_file_read :=
       fun path =>
         if String.eqb path "/oppia/core/tests/protractor.conf.js"
         then ret "exports.config = {};" else raise IOError;
     dict_from_yaml := fun _ => raise YAMLError;
     convert_to_bytes := Sample.to_bytes;
     snake_case_to_camel_case := Utils.snake_case_to_camel_case |}.

End Faulty.

(** ** Lists: what the operations of [main] do *)

Lemma list_eq_true (l1 l2 : list string) : list_eq l1 l2 = true <-> l1 = l2.
Proof.
  revert l2; induction l1 as [|x l1 IH]; intros [|y l2]; simpl;
    try (split; [discriminate | intros H; discriminate H]); [tauto|].
  rewrite andb_true_iff, String.eqb_eq, IH.
  split; [intros [-> ->]; reflexivity | intros [= -> ->]; auto].
Qed.

Lemma list_eq_refl (l : list string) : list_eq l l = true.
Proof. apply list_eq_true; reflexivity. Qed.

Lemma list_eq_nil (l : list string) : list_eq l [] = false <-> l <> [].
Proof. destruct l; simpl; split; congruence. Qed.

Lemma list_contains_true (x : string) (l : list string) :
  list_contains x l = true <-> In x l.
Proof.
  unfold list_contains; rewrite existsb_exists; split.
  - intros (y & Hy & E); apply String.eqb_eq in E; subst; assumption.
  - intros H; exists x; split; [assumption | apply String.eqb_refl].
Qed.

(** [remove] deletes the first occurrence and nothing else. *)
Lemma list_remove_first (x : string) (l1 l2 : list string) :
  ~ In x l1 -> list_remove x (l1 ++ x :: l2)%list = ret (l1 ++ l2)%list.
Proof.
  induction l1 as [|y l1 IH]; simpl; intros H.
  - rewrite String.eqb_refl; reflexivity.
  - destruct (String.eqb_spec y x) as [->|_]; [tauto|].
    rewrite IH by tauto; reflexivity.
Qed.

Lemma list_remove_absent (x : string) (l : list string) :
  ~ In x l -> list_remove x l = raise ValueError.
Proof.
  induction l as [|y l IH]; simpl; intros H; [reflexivity|].
  destruct (String.eqb_spec y x) as [->|_]; [tauto|].
  rewrite IH by tauto; reflexivity.
Qed.

Lemma list_remove_inv (x : string) (l : list string) (r : result (list string)) :
  list_remove x l = r ->
  (r = raise ValueError /\ ~ In x l) \/
  (exists l1 l2, l = (l1 ++ x :: l2)%list /\ ~ In x l1 /\ r = ret (l1 ++ l2)%list).
Proof.
  intros <-; destruct (in_dec string_dec x l) as [H|H].
  - right; induction l as [|y l IH]; [destruct H|].
    destruct (string_dec y x) as [->|N].
    + exists [], l; simpl; rewrite String.eqb_refl; auto.
    + destruct H as [H|H]; [contradiction|].
      destruct (IH H) as (l1 & l2 & -> & H1 & E).
      exists (y :: l1), l2; simpl; rewrite E.
      destruct (String.eqb_spec y x); [contradiction|].
      split; [reflexivity|]; split; [|reflexivity].
      intros [?|?]; auto.
  - left; split; [apply list_remove_absent|]; assumption.
Qed.

Lemma list_remove_subset (x : string) (l l' : list string) :
  list_remove x l = ret l' -> forall y, In y l' -> In y l.
Proof.
  intros E y Hy; destruct (list_remove_inv _ _ _ E) as [[E' _]|(l1 & l2 & -> & _ & E')].
  - discriminate E'.
  - injection E' as ->; rewrite in_app_iff in *; simpl; tauto.
Qed.

Lemma list_remove_length (x : string) (l l' : list string) :
  list_remove x l = ret l' -> List.length l = S (List.length l').
Proof.
  intros E; destruct (list_remove_inv _ _ _ E) as [[E' _]|(l1 & l2 & -> & _ & E')].
  - discriminate E'.
  - injection E' as ->; rewrite !length_app; simpl; lia.
Qed.

(** The removal loop raises as soon as one excluded suite is missing. *)
Lemma remove_each_missing (excluded l : list string) (x : string) :
  In x excluded -> ~ In x l -> remove_each excluded l = raise ValueError.
Proof.
  revert l; induction excluded as [|e excluded IH]; intros l Hx Hl; [destruct Hx|].
  simpl; destruct (list_remove e l) as [err|l'] eqn:E.
  - destruct (list_remove_inv _ _ _ E) as [[-> _]|(? & ? & _ & _ & ?)];
      [reflexivity | discriminate].
  - destruct Hx as [->|Hx].
    + rewrite list_remove_absent in E by assumption; discriminate E.
    + simpl; apply IH; [assumption|].
      intros H; apply Hl; eapply list_remove_subset; eassumption.
Qed.

Lemma remove_each_error (excluded l : list string) (e : exn) :
  remove_each excluded l = inl e -> e = ValueError.
Proof.
  revert l; induction excluded as [|x excluded IH]; intros l; simpl; [discriminate|].
  destruct (list_remove x l) as [err|l'] eqn:E; simpl.
  - destruct (list_remove_inv _ _ _ E) as [[E' _]|(? & ? & _ & _ & E')];
      [|discriminate E'].
    injection E' as ->; intros [= <-]; reflexivity.
  - apply IH.
Qed.

Lemma remove_each_length (excluded l l' : list string) :
  remove_each excluded l = ret l' ->
  List.length l = List.length excluded + List.length l'.
Proof.
  revert l; induction excluded as [|x excluded IH]; intros l; simpl.
  - intros [= ->]; reflexivity.
  - destruct (list_remove x l) as [err|l1] eqn:E; simpl; [discriminate|].
    intros H; apply IH in H; apply list_remove_length in E; lia.
Qed.

(** ** [main]: the order of its checks *)

(** Once the removal loop has run, [main] is a chain of seven tests. *)
Lemma main_checks_after_removal (p p' j s : list string) :
  remove_each TEST_SUITES_NOT_RUN_ON_TRAVIS p = ret p' ->
  main_checks p j s =
    if list_eq j [] then raise (Exception_ Msg.jobs_empty)
    else if list_eq s [] then raise (Exception_ Msg.script_empty)
    else if list_eq p' [] then raise (Exception_ Msg.protractor_empty)
    else if negb (list_contains SAMPLE_TEST_SUITE_THAT_IS_KNOWN_TO_EXIST j)
      then raise (Exception_ Msg.jobs_sample_missing)
    else if negb (list_contains SAMPLE_TEST_SUITE_THAT_IS_KNOWN_TO_EXIST s)
      then raise (Exception_ Msg.script_sample_missing)
    else if negb (list_contains SAMPLE_TEST_SUITE_THAT_IS_KNOWN_TO_EXIST p')
      then raise (Exception_ Msg.protractor_sample_missing)
    else if list_eq p' j && list_eq j s then ret tt
    else raise (Exception_ Msg.not_in_sync).
Proof.
  intros E; unfold main_checks, check; rewrite E; cbn [bind ret raise].
  destruct (list_eq j []); cbn [bind ret raise negb]; [reflexivity|].
  destruct (list_eq s []); cbn [bind ret raise negb]; [reflexivity|].
  destruct (list_eq p' []); cbn [bind ret raise negb]; [reflexivity|].
  destruct (list_contains _ j); cbn [bind ret raise negb]; [|reflexivity].
  destruct (list_contains _ s); cbn [bind ret raise negb]; [|reflexivity].
  destruct (list_contains _ p'); cbn [bind ret raise negb]; [|reflexivity].
  destruct (list_eq p' j && list_eq j s); reflexivity.
Qed.

Lemma main_checks_removal_fails (p j s : list string) (e : exn) :
  remove_each TEST_SUITES_NOT_RUN_ON_TRAVIS p = inl e ->
  main_checks p j s = raise ValueError.
Proof.
  intros E; unfold main_checks; rewrite E.
  apply remove_each_error in E; subst; reflexivity.
Qed.

(** The run is accepted exactly when the adjusted protractor list and the
    two travis lists are one non-empty list that holds the sample suite. *)
Lemma main_checks_passes (p j s : list string) :
  main_checks p j s = ret tt <->
  remove_each TEST_SUITES_NOT_RUN_ON_TRAVIS p = ret j /\ j = s /\ j <> [] /\
  In SAMPLE_TEST_SUITE_THAT_IS_KNOWN_TO_EXIST j.
Proof.
  split.
  - destruct (remove_each TEST_SUITES_NOT_RUN_ON_TRAVIS p) as [e|p'] eqn:E.
    + rewrite (main_checks_removal_fails _ _ _ _ E); discriminate.
    + rewrite (main_checks_after_removal _ _ _ _ E).
      destruct (list_eq j []) eqn:Ej; [discriminate|].
      destruct (list_eq s []); [discriminate|].
      destruct (list_eq p' []); [discriminate|].
      destruct (list_contains _ j) eqn:Cj; [|discriminate].
      destruct (list_contains _ s); [|discriminate].
      destruct (list_contains _ p'); [|discriminate].
      destruct (list_eq p' j && list_eq j s) eqn:Q; [|discriminate].
      apply andb_true_iff in Q; destruct Q as [Q1 Q2].
      apply list_eq_true in Q1, Q2; subst.
      intros _; repeat split.
      * apply list_eq_nil; assumption.
      * apply list_contains_true; assumption.
  - intros (E & <- & N & I).
    rewrite (main_checks_after_removal _ _ _ _ E).
    apply list_eq_nil in N; apply list_contains_true in I.
    rewrite N, I, list_eq_refl; reflexivity.
Qed.

(** [main] when the three extractors return: what it prints follows from
    the checks alone. *)
Lemma main_extracted (py : imports)
      (p j s : list string) :
  get_e2e_suite_names_from_protractor_file py = ret p ->
  get_e2e_suite_names_from_jobs_travis_yml_file py = ret j ->
  get_e2e_suite_names_from_script_travis_yml_file py = ret s ->
  main py =
    match main_checks p j s with
    | inl e => (printed_on_error, inl e)
    | inr _ => (printed_on_success, inr tt)
    end.
Proof.
  intros Ep Ej Es; unfold main; rewrite Ep, Ej, Es; simpl.
  destruct (main_checks p j s) as [e|[]]; reflexivity.
Qed.

(** ** The validator *)

(** C1, as stated, fails: three equal lists are never accepted.  Here the
    removal loop raises, since the one list lacks the excluded suites. *)
Lemma equal_lists_are_rejected :
  let l := ["explorationImprovementsTab"] in
  l <> [] /\ In SAMPLE_TEST_SUITE_THAT_IS_KNOWN_TO_EXIST l /\
  main_checks l l l = raise ValueError.
Proof.
  cbv zeta; split; [discriminate|]; split; [left; reflexivity|].
  unfold main_checks.
  rewrite (remove_each_missing _ _ "full"); [reflexivity | simpl; tauto |].
  intros [H|[]]; discriminate H.
Qed.

(** Whatever the list, three equal lists make [main] raise: after the
    removal the protractor list is four names shorter than the other two. *)
Lemma main_checks_equal_lists (l : list string) :
  exists e, main_checks l l l = raise e.
Proof.
  destruct (main_checks l l l) as [e|[]] eqn:M; [exists e; reflexivity|].
  exfalso; apply main_checks_passes in M; destruct M as (E & _).
  apply remove_each_length in E; simpl in E; lia.
Qed.

(** C1 (amended): when the two travis lists and the protractor list without
    the excluded suites are one non-empty list that holds
    [explorationImprovementsTab], [main] returns and has printed [Done!]. *)
Theorem main_accepts_equal_adjusted_lists
    (py : imports)
    (protractor_test_suites yaml_jobs yaml_scripts : list string) :
  get_e2e_suite_names_from_protractor_file py
    = ret protractor_test_suites ->
  get_e2e_suite_names_from_jobs_travis_yml_file py = ret yaml_jobs ->
  get_e2e_suite_names_from_script_travis_yml_file py = ret yaml_scripts ->
  remove_each TEST_SUITES_NOT_RUN_ON_TRAVIS protractor_test_suites = ret yaml_jobs ->
  yaml_jobs = yaml_scripts ->
  yaml_jobs <> [] ->
  In SAMPLE_TEST_SUITE_THAT_IS_KNOWN_TO_EXIST yaml_jobs ->
  main py
    = (printed_on_success, ret tt).
Proof.
  intros Ep Ej Es R Q N I.
  rewrite (main_extracted _ _ _ _ Ep Ej Es).
  assert (H : main_checks protractor_test_suites yaml_jobs yaml_scripts = ret tt)
    by (apply main_checks_passes; auto).
  rewrite H; reflexivity.
Qed.

(** C1: the sample checkout is accepted. *)
Lemma main_accepts_equal_adjusted_lists_witness :
  main (Sample.checkout Sample.protractor_conf Sample.jobs Sample.script)
    = (printed_on_success, ret tt).
Proof.
  apply (main_accepts_equal_adjusted_lists _
           ["classroomPageFileUploadFeatures"; "explorationImprovementsTab";
            "fileUploadFeatures"; "full"; "topicAndStoryEditorFileUploadFeatures"]
           ["explorationImprovementsTab"] ["explorationImprovementsTab"]).
  - vm_compute; reflexivity.
  - vm_compute; reflexivity.
  - vm_compute; reflexivity.
  - vm_compute; reflexivity.
  - reflexivity.
  - discriminate.
  - left; reflexivity.
Defined.

(** C2, as stated, fails: the lists differ, and the error is the one of the
    empty jobs list. *)
Lemma differing_lists_other_error :
  let p := ["classroomPageFileUploadFeatures"; "explorationImprovementsTab";
            "fileUploadFeatures"; "full"; "topicAndStoryEditorFileUploadFeatures"] in
  let j := [] in
  let s := ["explorationImprovementsTab"] in
  remove_each TEST_SUITES_NOT_RUN_ON_TRAVIS p = ret s /\ j <> s /\
  main_checks p j s = raise (Exception_ Msg.jobs_empty) /\
  Msg.jobs_empty <> Msg.not_in_sync.
Proof.
  cbv zeta; split; [vm_compute; reflexivity|]; split; [discriminate|].
  split; [vm_compute; reflexivity | discriminate].
Qed.

(** C2 (amended): when two of the three adjusted lists differ [main] raises;
    the error is the one of the lists not being in sync when the three lists
    are non-empty and hold [explorationImprovementsTab]. *)
Theorem differing_lists_not_in_sync
    (protractor_test_suites adjusted yaml_jobs yaml_scripts : list string) :
  remove_each TEST_SUITES_NOT_RUN_ON_TRAVIS protractor_test_suites = ret adjusted ->
  adjusted <> yaml_jobs \/ yaml_jobs <> yaml_scripts \/ adjusted <> yaml_scripts ->
  (exists e, main_checks protractor_test_suites yaml_jobs yaml_scripts = raise e) /\
  (yaml_jobs <> [] -> yaml_scripts <> [] -> adjusted <> [] ->
   In SAMPLE_TEST_SUITE_THAT_IS_KNOWN_TO_EXIST yaml_jobs ->
   In SAMPLE_TEST_SUITE_THAT_IS_KNOWN_TO_EXIST yaml_scripts ->
   In SAMPLE_TEST_SUITE_THAT_IS_KNOWN_TO_EXIST adjusted ->
   main_checks protractor_test_suites yaml_jobs yaml_scripts
     = raise (Exception_ Msg.not_in_sync)).
Proof.
  intros R D.
  assert (Q : list_eq adjusted yaml_jobs && list_eq yaml_jobs yaml_scripts = false).
  { apply andb_false_iff.
    destruct (list_eq adjusted yaml_jobs) eqn:Q1; [|auto].
    destruct (list_eq yaml_jobs yaml_scripts) eqn:Q2; [|auto].
    apply list_eq_true in Q1, Q2; subst; destruct D as [D|[D|D]]; congruence. }
  split.
  - destruct (main_checks protractor_test_suites yaml_jobs yaml_scripts)
      as [e|[]] eqn:M; [exists e; reflexivity|].
    apply main_checks_passes in M; destruct M as (R' & <- & _).
    rewrite R in R'; injection R' as ->.
    destruct D as [D|[D|D]]; congruence.
  - intros Nj Ns Np Ij Is Ip.
    rewrite (main_checks_after_removal _ _ _ _ R), Q.
    apply list_eq_nil in Nj, Ns, Np; apply list_contains_true in Ij, Is, Ip.
    rewrite Nj, Ns, Np, Ij, Is, Ip; reflexivity.
Qed.

(** C2: a jobs list with one suite more than the other two. *)
Lemma differing_lists_not_in_sync_witness :
  main_checks
    ["classroomPageFileUploadFeatures"; "explorationImprovementsTab";
     "fileUploadFeatures"; "full"; "topicAndStoryEditorFileUploadFeatures"]
    ["accessibility"; "explorationImprovementsTab"]
    ["explorationImprovementsTab"]
  = raise (Exception_ Msg.not_in_sync).
Proof.
  apply (differing_lists_not_in_sync _ ["explorationImprovementsTab"]).
  - vm_compute; reflexivity.
  - left; discriminate.
  - discriminate.
  - discriminate.
  - discriminate.
  - right; left; reflexivity.
  - left; reflexivity.
  - left; reflexivity.
Defined.

(** C6, as stated, fails: the protractor list has [full] and the other
    excluded suites, the removal leaves the list of the other two, and
    [main] raises all the same, for the sample suite is in none of them. *)
Lemma allow_listed_removed_yet_rejected :
  let p := ["accessibility"; "classroomPageFileUploadFeatures";
            "fileUploadFeatures"; "full"; "topicAndStoryEditorFileUploadFeatures"] in
  let j := ["accessibility"] in
  let s := ["accessibility"] in
  In "full" TEST_SUITES_NOT_RUN_ON_TRAVIS /\ In "full" p /\
  ~ In "full" j /\ ~ In "full" s /\
  remove_each TEST_SUITES_NOT_RUN_ON_TRAVIS p = ret j /\ j = s /\
  main_checks p j s = raise (Exception_ Msg.jobs_sample_missing).
Proof.
  cbv zeta; repeat split; try (vm_compute; reflexivity).
  - left; reflexivity.
  - simpl; tauto.
  - intros [H|[]]; discriminate H.
  - intros [H|[]]; discriminate H.
Qed.

(** C6 (amended): a protractor list with an excluded suite that the other
    two lists lack is accepted when the removal of the four excluded suites
    leaves the list of the other two, and that list is not empty and holds
    [explorationImprovementsTab]. *)
Theorem allow_listed_suites_are_ignored
    (protractor_test_suites yaml_jobs yaml_scripts : list string)
    (excluded_test : string) :
  In excluded_test TEST_SUITES_NOT_RUN_ON_TRAVIS ->
  In excluded_test protractor_test_suites ->
  ~ In excluded_test yaml_jobs ->
  ~ In excluded_test yaml_scripts ->
  remove_each TEST_SUITES_NOT_RUN_ON_TRAVIS protractor_test_suites = ret yaml_jobs ->
  yaml_jobs = yaml_scripts ->
  yaml_jobs <> [] ->
  In SAMPLE_TEST_SUITE_THAT_IS_KNOWN_TO_EXIST yaml_jobs ->
  main_checks protractor_test_suites yaml_jobs yaml_scripts = ret tt /\
  protractor_test_suites <> yaml_jobs.
Proof.
  intros _ Ip Nj _ R Q N I; split.
  - apply main_checks_passes; auto.
  - intros ->; contradiction.
Qed.

(** C6: the lists of the sample checkout, with [full] as the excluded
    suite. *)
Lemma allow_listed_suites_are_ignored_witness :
  main_checks
    ["classroomPageFileUploadFeatures"; "explorationImprovementsTab";
     "fileUploadFeatures"; "full"; "topicAndStoryEditorFileUploadFeatures"]
    ["explorationImprovementsTab"] ["explorationImprovementsTab"] = ret tt.
Proof.
  apply (allow_listed_suites_are_ignored _ _ _ "full").
  - left; reflexivity.
  - simpl; tauto.
  - intros [H|[]]; discriminate H.
  - intros [H|[]]; discriminate H.
  - vm_compute; reflexivity.
  - reflexivity.
  - discriminate.
  - left; reflexivity.
Defined.




(** C8, as stated, fails: the sample suite is not in the jobs list, which is
    empty, and the error is the one of the empty list, not one of the three
    sample-suite errors. *)
Lemma sample_missing_from_empty_list :
  let p := ["classroomPageFileUploadFeatures"; "explorationImprovementsTab";
            "fileUploadFeatures"; "full"; "topicAndStoryEditorFileUploadFeatures"] in
  let j := [] in
  let s := ["explorationImprovementsTab"] in
  remove_each TEST_SUITES_NOT_RUN_ON_TRAVIS p = ret s /\
  ~ In SAMPLE_TEST_SUITE_THAT_IS_KNOWN_TO_EXIST j /\
  main_checks p j s = raise (Exception_ Msg.jobs_empty) /\
  Msg.jobs_empty <> Msg.jobs_sample_missing /\
  Msg.jobs_empty <> Msg.script_sample_missing /\
  Msg.jobs_empty <> Msg.protractor_sample_missing.
Proof.
  cbv zeta; repeat split; try discriminate; try (vm_compute; reflexivity).
  intros [].
Qed.

(** C8 (amended): when the removal loop has returned and none of the three
    lists is empty, a list without [explorationImprovementsTab] makes [main]
    raise the error of the first of the three sample-suite checks that
    fails: jobs, then script, then protractor. *)
Theorem missing_sample_suite_is_reported
    (protractor_test_suites adjusted yaml_jobs yaml_scripts : list string) :
  remove_each TEST_SUITES_NOT_RUN_ON_TRAVIS protractor_test_suites = ret adjusted ->
  yaml_jobs <> [] -> yaml_scripts <> [] -> adjusted <> [] ->
  (~ In SAMPLE_TEST_SUITE_THAT_IS_KNOWN_TO_EXIST yaml_jobs ->
   main_checks protractor_test_suites yaml_jobs yaml_scripts
     = raise (Exception_ Msg.jobs_sample_missing)) /\
  (In SAMPLE_TEST_SUITE_THAT_IS_KNOWN_TO_EXIST yaml_jobs ->
   ~ In SAMPLE_TEST_SUITE_THAT_IS_KNOWN_TO_EXIST yaml_scripts ->
   main_checks protractor_test_suites yaml_jobs yaml_scripts
     = raise (Exception_ Msg.script_sample_missing)) /\
  (In SAMPLE_TEST_SUITE_THAT_IS_KNOWN_TO_EXIST yaml_jobs ->
   In SAMPLE_TEST_SUITE_THAT_IS_KNOWN_TO_EXIST yaml_scripts ->
   ~ In SAMPLE_TEST_SUITE_THAT_IS_KNOWN_TO_EXIST adjusted ->
   main_checks protractor_test_suites yaml_jobs yaml_scripts
     = raise (Exception_ Msg.protractor_sample_missing)).
Proof.
  intros R Nj Ns Np; rewrite (main_checks_after_removal _ _ _ _ R).
  apply list_eq_nil in Nj, Ns, Np; rewrite Nj, Ns, Np.
  assert (C : forall l, ~ In SAMPLE_TEST_SUITE_THAT_IS_KNOWN_TO_EXIST l ->
                        list_contains SAMPLE_TEST_SUITE_THAT_IS_KNOWN_TO_EXIST l = false).
  { intros l H; destruct (list_contains _ l) eqn:E; [|reflexivity].
    apply list_contains_true in E; contradiction. }
  split; [|split].
  - intros Ij; rewrite (C _ Ij); reflexivity.
  - intros Ij Is; apply list_contains_true in Ij; rewrite Ij, (C _ Is); reflexivity.
  - intros Ij Is Ip; apply list_contains_true in Ij, Is.
    rewrite Ij, Is, (C _ Ip); reflexivity.
Qed.

(** C8: a protractor list without the sample suite. *)
Lemma missing_sample_suite_is_reported_witness :
  main_checks
    ["accessibility"; "classroomPageFileUploadFeatures"; "fileUploadFeatures";
     "full"; "topicAndStoryEditorFileUploadFeatures"]
    ["explorationImprovementsTab"] ["explorationImprovementsTab"]
  = raise (Exception_ Msg.protractor_sample_missing).
Proof.
  apply (missing_sample_suite_is_reported _ ["accessibility"]).
  - vm_compute; reflexivity.
  - discriminate.
  - discriminate.
  - discriminate.
  - left; reflexivity.
  - left; reflexivity.
  - intros [H|[]]; discriminate H.
Defined.

(** C10: when the protractor list lacks one of the four excluded suites,
    [main] raises [ValueError] in the removal loop, whatever the two travis
    lists are, so before the checks of emptiness, of the sample suite and of
    equality; and [remove] deletes the first occurrence of a name and leaves
    the later ones. *)
Theorem main_raises_ValueError_in_removal :
  (forall (py : imports)
          (protractor_test_suites yaml_jobs yaml_scripts : list string)
          (excluded_test : string),
      get_e2e_suite_names_from_protractor_file py
        = ret protractor_test_suites ->
      get_e2e_suite_names_from_jobs_travis_yml_file py = ret yaml_jobs ->
      get_e2e_suite_names_from_script_travis_yml_file py = ret yaml_scripts ->
      In excluded_test TEST_SUITES_NOT_RUN_ON_TRAVIS ->
      ~ In excluded_test protractor_test_suites ->
      main_checks protractor_test_suites yaml_jobs yaml_scripts = raise ValueError /\
      main py = (printed_on_error, raise ValueError)) /\
  (forall (x : string) (before after : list string),
      ~ In x before ->
      list_remove x (before ++ x :: after)%list = ret (before ++ after)%list /\
      count_occ string_dec (before ++ after)%list x = count_occ string_dec after x).
Proof.
  split.
  - intros py p j s x Ep Ej Es Hx Hp.
    assert (M : main_checks p j s = raise ValueError).
    { unfold main_checks; rewrite (remove_each_missing _ _ x Hx Hp); reflexivity. }
    split; [assumption|].
    rewrite (main_extracted _ _ _ _ Ep Ej Es), M; reflexivity.
  - intros x before after H; split; [apply list_remove_first; assumption|].
    rewrite count_occ_app.
    apply (count_occ_not_In string_dec) in H; rewrite H; reflexivity.
Qed.

(** C10: a protractor list with [full] and without the other three, and
    jobs that give an empty list; a list with [full] twice. *)
Lemma main_raises_ValueError_in_removal_witness :
  main (Sample.checkout "suites = { alpha: [...], full: [...] }"
                        "no jobs" Sample.script)
    = (printed_on_error, raise ValueError) /\
  list_remove "full" ["alpha"; "full"; "full"] = ret ["alpha"; "full"].
Proof.
  split.
  - apply (proj1 main_raises_ValueError_in_removal _
             ["alpha"; "full"] [] ["explorationImprovementsTab"]
             "fileUploadFeatures").
    + vm_compute; reflexivity.
    + vm_compute; reflexivity.
    + vm_compute; reflexivity.
    + simpl; tauto.
    + intros [H|[H|[]]]; discriminate H.
  - apply (proj2 main_raises_ValueError_in_removal "full" ["alpha"] ["full"]).
    intros [H|[]]; discriminate H.
Defined.

(** ** Byte strings: concatenation *)

Lemma append_assoc (a b c : string) : (a ++ b) ++ c = a ++ b ++ c.
Proof. induction a as [|x a IH]; simpl; [reflexivity | rewrite IH; reflexivity]. Qed.

Lemma append_nil_r (a : string) : a ++ "" = a.
Proof. induction a as [|x a IH]; simpl; [reflexivity | rewrite IH; reflexivity]. Qed.

Lemma length_append (a b : string) :
  String.length (a ++ b) = String.length a + String.length b.
Proof. induction a as [|x a IH]; simpl; [reflexivity | rewrite IH; reflexivity]. Qed.

Lemma last_char_append (prev : option ascii) (a b : string) :
  Str.last_char prev (a ++ b) = Str.last_char (Str.last_char prev a) b.
Proof. revert prev; induction a as [|x a IH]; intros prev; simpl; auto. Qed.

Lemma all_append (p : ascii -> bool) (a b : string) :
  Str.all p (a ++ b) = Str.all p a && Str.all p b.
Proof.
  induction a as [|x a IH]; simpl; [reflexivity|].
  rewrite IH, andb_assoc; reflexivity.
Qed.

(** ** One match attempt *)

Lemma reads_append (a b : string) (st : Re.mstate) :
  Re.reads (a ++ b) st = Re.reads b (Re.reads a st).
Proof. revert st; induction a as [|x a IH]; intros st; simpl; auto. Qed.

Lemma reads_state (a : string) (st : Re.mstate) :
  Re.reads a st =
    Re.MState (Re.consumed st + String.length a) (Re.capturing st)
              (if Re.capturing st then Re.captured st ++ a else Re.captured st).
Proof.
  revert st; induction a as [|x a IH]; intros [n b g]; simpl.
  - rewrite Nat.add_0_r; destruct b; [rewrite append_nil_r|]; reflexivity.
  - rewrite IH; simpl; destruct b; simpl.
    + rewrite append_assoc; simpl; f_equal; lia.
    + f_equal; lia.
Qed.

(** The unfolding of a greedy repeat. *)
Lemma match_here_repeat (min : nat) (o : Re.chr_op) (p : Re.pattern)
      (prev : option ascii) (s : string) (st : Re.mstate) :
  Re.match_here (Re.MAX_REPEAT min o :: p) prev s st =
    let stop := match min with
                | 0 => Re.match_here p prev s st
                | S _ => None
                end in
    match s with
    | String c s' =>
        if Re.chr_matches o c then
          match Re.match_here (Re.MAX_REPEAT (pred min) o :: p) (Some c) s'
                              (Re.read c st) with
          | Some r => Some r
          | None => stop
          end
        else stop
    | EmptyString => stop
    end.
Proof. destruct s; reflexivity. Qed.

(** A literal run of the pattern reads exactly its characters. *)
Lemma match_here_literals (l : string) (p : Re.pattern) (prev : option ascii)
      (t : string) (st : Re.mstate) :
  Re.match_here (Re.literals l ++ p)%list prev (l ++ t) st =
    Re.match_here p (Str.last_char prev l) t (Re.reads l st).
Proof.
  revert prev st; induction l as [|c l IH]; intros prev st; [reflexivity|].
  simpl; rewrite Ascii.eqb_refl; apply IH.
Qed.

Lemma match_here_literals_inv (l : string) (p : Re.pattern) (prev : option ascii)
      (s : string) (st : Re.mstate) (r : string * nat) :
  Re.match_here (Re.literals l ++ p)%list prev s st = Some r ->
  exists t, s = l ++ t.
Proof.
  revert prev s st; induction l as [|c l IH]; intros prev s st; simpl.
  - exists s; reflexivity.
  - destruct s as [|x s]; [discriminate|].
    destruct (Ascii.eqb_spec c x) as [<-|_]; [|discriminate].
    intros H; destruct (IH _ _ _ H) as (t & ->); exists t; reflexivity.
Qed.

(** The end of each of the four patterns: the group, a greedy repeat of a
    character test, closed by a literal that the test refuses.  The repeat
    then never has to give a character back: the group is the longest run
    of accepted characters, and the literal has to follow it. *)
Lemma group_then_literal (o : Re.chr_op) (min : nat) (c : ascii)
      (prev : option ascii) (x post : string) (st : Re.mstate) :
  Re.chr_matches o c = false ->
  Str.all (Re.chr_matches o) x = true ->
  min <= String.length x ->
  Re.match_here [Re.MAX_REPEAT min o; Re.MARK true; Re.ONE (Re.LITERAL c)]
                prev (x ++ String c post) st
    = Some (Re.captured (Re.reads x st),
            S (Re.consumed st + String.length x)).
Proof.
  intros Hc; revert min prev st; induction x as [|a x IH]; intros min prev st Hx Hmin.
  - rewrite match_here_repeat; simpl in *.
    rewrite Hc; destruct min; [|lia].
    simpl; rewrite Ascii.eqb_refl; destruct st; simpl.
    rewrite Nat.add_0_r; reflexivity.
  - rewrite match_here_repeat; simpl in *.
    apply andb_true_iff in Hx; destruct Hx as [Ha Hx].
    rewrite Ha, IH by (assumption || lia).
    simpl; do 2 f_equal; lia.
Qed.

Lemma group_then_literal_inv (o : Re.chr_op) (min : nat) (c : ascii)
      (prev : option ascii) (s : string) (st : Re.mstate) (r : string * nat) :
  Re.chr_matches o c = false ->
  Re.match_here [Re.MAX_REPEAT min o; Re.MARK true; Re.ONE (Re.LITERAL c)]
                prev s st = Some r ->
  exists x post,
    s = x ++ String c post /\ Str.all (Re.chr_matches o) x = true /\
    min <= String.length x /\
    r = (Re.captured (Re.reads x st), S (Re.consumed st + String.length x)).
Proof.
  intros Hc; revert min prev st; induction s as [|a s IH]; intros min prev st.
  - rewrite match_here_repeat; simpl; destruct min; discriminate.
  - rewrite match_here_repeat; cbv zeta.
    assert (Stop : match min with
                   | 0 => Re.match_here [Re.MARK true; Re.ONE (Re.LITERAL c)]
                                        prev (String a s) st
                   | S _ => None
                   end = Some r ->
                   Re.chr_matches o a = false ->
                   exists x post,
                     String a s = x ++ String c post /\
                     Str.all (Re.chr_matches o) x = true /\
                     min <= String.length x /\
                     r = (Re.captured (Re.reads x st),
                          S (Re.consumed st + String.length x))).
    { destruct min; [|discriminate]; simpl.
      destruct (Ascii.eqb_spec c a) as [<-|_]; [|discriminate].
      intros [= <-] _; exists "", s; destruct st; simpl.
      rewrite Nat.add_0_r; auto. }
    destruct (Re.chr_matches o a) eqn:Ha; [|intros H; apply Stop; auto].
    destruct (Re.match_here _ (Some a) s (Re.read a st)) as [r'|] eqn:M.
    + intros [= <-]; destruct (IH _ _ _ M) as (x & post & -> & Hx & Hmin & ->).
      exists (String a x), post; simpl; rewrite Ha, Hx.
      repeat split; [lia|]; do 2 f_equal; lia.
    + intros H; exfalso.
      destruct min; [|discriminate]; simpl in H.
      destruct (Ascii.eqb_spec c a) as [<-|_]; [congruence | discriminate].
Qed.

(** ** [findall]: the scan *)

Section Scan.

Variable p : Re.pattern.

(** The characters of a match are not tried again. *)
Lemma findall_from_skip (u v : string) (prev : option ascii) :
  Re.findall_from p (String.length u) prev (u ++ v) =
    Re.findall_from p 0 (Str.last_char prev u) v.
Proof.
  revert prev; induction u as [|c u IH]; intros prev; [reflexivity|].
  simpl; apply IH.
Qed.

(** A stretch in which no attempt succeeds gives nothing. *)
Lemma findall_from_unmatched (u v : string) (prev : option ascii) :
  (forall a b, u = a ++ b -> b <> "" ->
               Re.match_here p (Str.last_char prev a) (b ++ v) Re.init = None) ->
  Re.findall_from p 0 prev (u ++ v) =
    Re.findall_from p 0 (Str.last_char prev u) v.
Proof.
  revert prev; induction u as [|c u IH]; intros prev H; [reflexivity|].
  cbn [String.append Re.findall_from Str.last_char].
  rewrite <- IH.
  - specialize (H "" (String c u) eq_refl); simpl in H.
    rewrite H by discriminate; reflexivity.
  - intros a b -> Hb; apply (H (String c a) b); auto.
Qed.

Lemma findall_from_no_match (s : string) (prev : option ascii) :
  (forall a b, s = a ++ b ->
               Re.match_here p (Str.last_char prev a) b Re.init = None) ->
  Re.findall_from p 0 prev s = [].
Proof.
  intros H; rewrite <- (append_nil_r s), findall_from_unmatched.
  - simpl; rewrite (H s ""); [reflexivity | symmetry; apply append_nil_r].
  - intros a b -> _; rewrite append_nil_r; apply H; reflexivity.
Qed.

(** A successful attempt gives its group, and the scan goes on behind the
    match. *)
Lemma findall_from_match (u v : string) (prev : option ascii) (g : string) :
  u <> "" ->
  Re.match_here p prev (u ++ v) Re.init = Some (g, String.length u) ->
  Re.findall_from p 0 prev (u ++ v) =
    g :: Re.findall_from p 0 (Str.last_char prev u) v.
Proof.
  destruct u as [|c u]; [congruence|]; intros _ M.
  cbn [String.append Re.findall_from]; cbn [String.append] in M.
  rewrite M; cbn [String.length pred app Str.last_char].
  rewrite findall_from_skip; reflexivity.
Qed.

(** What [findall] returns is the group of a match somewhere in the text. *)
Lemma findall_from_sound (s : string) (skip : nat) (prev : option ascii) (g : string) :
  In g (Re.findall_from p skip prev s) ->
  exists a b n, s = a ++ b /\
                Re.match_here p (Str.last_char prev a) b Re.init = Some (g, n).
Proof.
  revert skip prev; induction s as [|c s IH]; intros skip prev.
  - simpl; destruct skip; [|intros []].
    destruct (Re.match_here p prev "" Re.init) as [[g' n]|] eqn:M; [|intros []].
    intros [<-|[]]; exists "", "", n; auto.
  - cbn [Re.findall_from]; rewrite in_app_iff; intros [H|H].
    + destruct skip; [|destruct H].
      destruct (Re.match_here p prev (String c s) Re.init) as [[g' n]|] eqn:M;
        [|destruct H].
      destruct H as [<-|[]]; exists "", (String c s), n; auto.
    + destruct (IH _ _ H) as (a & b & n & -> & M).
      exists (String c a), b, n; auto.
Qed.

(** A match whose start no earlier match reaches over is found. *)
Lemma findall_from_complete (u v : string) (skip : nat) (prev : option ascii)
      (g : string) (n : nat) :
  skip <= String.length u ->
  Re.match_here p (Str.last_char prev u) v Re.init = Some (g, n) ->
  (forall a b g' n',
      u = a ++ b -> b <> "" ->
      Re.match_here p (Str.last_char prev a) (b ++ v) Re.init = Some (g', n') ->
      n' <= String.length b) ->
  In g (Re.findall_from p skip prev (u ++ v)).
Proof.
  revert skip prev; induction u as [|c u IH]; intros skip prev Hskip M NS.
  - simpl in *; assert (skip = 0) as -> by lia.
    destruct v; simpl; rewrite M; simpl; auto.
  - cbn [String.append Re.findall_from]; rewrite in_app_iff; right.
    apply IH; [| exact M |].
    + simpl in Hskip; destruct skip as [|k]; [|lia].
      destruct (Re.match_here p prev (String c (u ++ v)) Re.init)
        as [[g' n']|] eqn:M'; [|lia].
      specialize (NS "" (String c u) g' n' eq_refl); simpl in NS.
      specialize (NS ltac:(discriminate) M'); lia.
    + intros a b g' n' -> Hb; apply (NS (String c a) b); auto.
Qed.

(** A match anywhere makes the result non-empty. *)
Lemma findall_from_nonempty (a b : string) (prev : option ascii) (r : string * nat) :
  Re.match_here p (Str.last_char prev a) b Re.init = Some r ->
  Re.findall_from p 0 prev (a ++ b) <> [].
Proof.
  revert prev; induction a as [|c a IH]; intros prev M.
  - simpl in *; destruct b; simpl; rewrite M; destruct r; discriminate.
  - cbn [String.append Re.findall_from].
    destruct (Re.match_here p prev (String c (a ++ b)) Re.init) as [[g n]|];
      [discriminate|].
    simpl; apply IH; exact M.
Qed.

End Scan.

(** ** [sorted] *)

Lemma insert_Permutation (x : string) (l : list string) :
  Permutation (x :: l) (Str.insert x l).
Proof.
  induction l as [|y l IH]; simpl; [reflexivity|].
  destruct (String.leb x y); [reflexivity|].
  rewrite perm_swap; constructor; exact IH.
Qed.

Lemma sorted_Permutation (l : list string) : Permutation l (Str.sorted l).
Proof.
  induction l as [|x l IH]; simpl; [constructor|].
  rewrite <- insert_Permutation; constructor; exact IH.
Qed.

Lemma insert_Sorted (x : string) (l : list string) :
  Sorted Str.le l -> Sorted Str.le (Str.insert x l).
Proof.
  induction 1 as [|y l Hl IH Hy]; simpl; [repeat constructor|].
  destruct (String.leb x y) eqn:E.
  - repeat constructor; assumption.
  - constructor; [exact IH|].
    assert (Hyx : Str.le y x).
    { destruct (String.leb_total x y) as [H|H]; [congruence | exact H]. }
    destruct Hy as [|z l Hz]; simpl; [repeat constructor; exact Hyx|].
    destruct (String.leb x z); constructor; assumption.
Qed.

Lemma sorted_Sorted (l : list string) : Sorted Str.le (Str.sorted l).
Proof.
  induction l as [|x l IH]; simpl; [constructor | apply insert_Sorted; exact IH].
Qed.

Lemma sorted_In (x : string) (l : list string) : In x (Str.sorted l) <-> In x l.
Proof.
  split; apply Permutation_in;
    [symmetry|]; apply sorted_Permutation.
Qed.

(** ** The jobs pattern *)

Lemma match_here_mark (close : bool) (p : Re.pattern) (prev : option ascii)
      (s : string) (st : Re.mstate) :
  Re.match_here (Re.MARK close :: p) prev s st =
    Re.match_here p prev s (Re.mark close st).
Proof. reflexivity. Qed.

(** The group cannot run into a later text [w1 ++ d ++ ...] when [d] is
    neither accepted by the repeat nor the closing literal [c], and [c] is
    not in [w1]. *)
Lemma group_stops_before (cls : ascii -> bool) (c d : ascii) (w1 : string) :
  cls d = false -> d <> c ->
  Str.all (fun x => negb (Ascii.eqb x c)) w1 = true ->
  forall b g post rest,
    Str.all cls g = true ->
    b ++ w1 ++ String d rest = g ++ String c post ->
    String.length g < String.length b.
Proof.
  intros Hd Hdc Hw b; induction b as [|x b IH]; intros g post rest Hg E.
  - exfalso; simpl in E; revert g Hg E.
    induction w1 as [|y w1 IHw]; intros g Hg E.
    + destruct g as [|z g]; simpl in *; injection E as -> _; [congruence|].
      rewrite Hd in Hg; discriminate.
    + simpl in Hw; apply andb_true_iff in Hw; destruct Hw as [Hy Hw].
      destruct g as [|z g]; simpl in *; injection E as -> E.
      * rewrite Ascii.eqb_refl in Hy; discriminate.
      * apply andb_true_iff in Hg; apply (IHw Hw g); tauto.
  - destruct g as [|z g]; simpl in *; [lia|].
    injection E as -> E; apply andb_true_iff in Hg.
    apply IH in E; [lia | tauto].
Qed.

(** Take one character off the text before an occurrence: either the text
    is used up, and the occurrence would have to start inside a literal of
    the pattern, or its first character is the literal's next one. *)
Ltac peel b E :=
  destruct b as [|? b];
  [ simpl in E; discriminate E
  | simpl in E; injection E as ? E; subst ].

Lemma test_regex_match (prev : option ascii) (name post : string) :
  Str.all (Re.chr_matches upper_snake) name = true ->
  Re.match_here test_regex prev ("RUN_E2E_TESTS_" ++ name ++ String "=" post) Re.init
    = Some (name, String.length ("RUN_E2E_TESTS_" ++ name ++ "=")).
Proof.
  intros H; unfold test_regex.
  rewrite match_here_literals, match_here_mark, group_then_literal;
    [| reflexivity | exact H | lia].
  rewrite reads_state; simpl; rewrite length_append; simpl.
  do 3 f_equal; lia.
Qed.

Lemma test_regex_match_inv (prev : option ascii) (s g : string) (n : nat) :
  Re.match_here test_regex prev s Re.init = Some (g, n) ->
  exists post,
    s = "RUN_E2E_TESTS_" ++ g ++ String "=" post /\
    Str.all (Re.chr_matches upper_snake) g = true /\
    n = String.length ("RUN_E2E_TESTS_" ++ g ++ "=").
Proof.
  unfold test_regex; intros M.
  destruct (match_here_literals_inv _ _ _ _ _ _ M) as (t & ->).
  rewrite match_here_literals, match_here_mark in M.
  apply group_then_literal_inv in M; [|reflexivity].
  destruct M as (x & post & -> & Hx & _ & [= -> ->]).
  rewrite reads_state; simpl; exists post; repeat split; [assumption|].
  rewrite length_append; simpl; lia.
Qed.

(** No match that starts before an occurrence of [RUN_E2E_TESTS_] reaches
    into it. *)
Lemma test_regex_no_overlap (prev : option ascii) (b rest g : string) (n : nat) :
  b <> "" ->
  Re.match_here test_regex prev (b ++ "RUN_E2E_TESTS_" ++ rest) Re.init
    = Some (g, n) ->
  n <= String.length b.
Proof.
  intros Hb M; apply test_regex_match_inv in M.
  destruct M as (post & E & Hg & ->).
  destruct b as [|? b]; [congruence|].
  simpl in E; injection E as ? E; subst.
  do 13 peel b E.
  apply (group_stops_before (Re.chr_matches upper_snake) "=" "2" "RUN_E") in E;
    [| reflexivity | discriminate | reflexivity | exact Hg].
  rewrite length_append; simpl; rewrite length_append; simpl; lia.
Qed.

Lemma findall_test_regex_complete (pre name post : string) :
  Str.all (Re.chr_matches upper_snake) name = true ->
  In name (Re.findall test_regex
             (pre ++ "RUN_E2E_TESTS_" ++ name ++ String "=" post)).
Proof.
  intros H; unfold Re.findall.
  eapply findall_from_complete; [lia | apply test_regex_match; exact H |].
  intros a b g' n' _ Hb M; exact (test_regex_no_overlap _ _ _ _ _ Hb M).
Qed.

Lemma findall_test_regex_sound (s job : string) :
  In job (Re.findall test_regex s) ->
  exists pre post,
    s = pre ++ "RUN_E2E_TESTS_" ++ job ++ String "=" post /\
    Str.all (Re.chr_matches upper_snake) job = true.
Proof.
  intros H; apply findall_from_sound in H; destruct H as (a & b & n & -> & M).
  apply test_regex_match_inv in M; destruct M as (post & -> & Hg & _).
  exists a, post; auto.
Qed.

(** C3: the jobs extractor returns a sorted list; it holds what
    [snake_case_to_camel_case] makes of the lower-cased name of every
    assignment [RUN_E2E_TESTS_<name>=] of the jobs string, [name] in upper
    snake case, and nothing else; so [fooBar] for
    [RUN_E2E_TESTS_FOO_BAR=true], [fooBar] being the camelCase form of
    [foo_bar]. *)
Theorem jobs_extractor_returns_sorted_suites
    (py : imports)
    (travis_file_content env jobs : yaml) :
  read_and_parse_travis_yml_file py
    = ret travis_file_content ->
  getitem travis_file_content "env" = ret env ->
  getitem env "jobs" = ret jobs ->
  exists suites,
    get_e2e_suite_names_from_jobs_travis_yml_file py = ret suites /\
    Sorted Str.le suites /\
    Permutation suites
      (map (fun job => snake_case_to_camel_case py (Str.lower job))
           (Re.findall test_regex (convert_to_bytes py jobs))) /\
    (forall pre name post,
        convert_to_bytes py jobs
          = pre ++ "RUN_E2E_TESTS_" ++ name ++ String "=" post ->
        Str.all (Re.chr_matches upper_snake) name = true ->
        In (snake_case_to_camel_case py (Str.lower name)) suites) /\
    (forall suite,
        In suite suites ->
        exists pre name post,
          convert_to_bytes py jobs
            = pre ++ "RUN_E2E_TESTS_" ++ name ++ String "=" post /\
          Str.all (Re.chr_matches upper_snake) name = true /\
          suite = snake_case_to_camel_case py (Str.lower name)) /\
    (snake_case_to_camel_case py "foo_bar" = "fooBar" ->
     forall pre post,
       convert_to_bytes py jobs = pre ++ "RUN_E2E_TESTS_FOO_BAR=true" ++ post ->
       In "fooBar" suites).
Proof.
  intros Et Ee Ej; eexists; split.
  { unfold get_e2e_suite_names_from_jobs_travis_yml_file.
    rewrite Et; cbn [bind ret]; rewrite Ee; cbn [bind ret]; rewrite Ej; cbn [bind ret].
    reflexivity. }
  set (f := fun job => snake_case_to_camel_case py (Str.lower job)).
  assert (Complete : forall pre name post,
             convert_to_bytes py jobs
               = pre ++ "RUN_E2E_TESTS_" ++ name ++ String "=" post ->
             Str.all (Re.chr_matches upper_snake) name = true ->
             In (f name) (Str.sorted
                            (map f (Re.findall test_regex
                                                   (convert_to_bytes py jobs))))).
  { intros pre name post -> H; apply sorted_In, in_map.
    apply findall_test_regex_complete; exact H. }
  split; [apply sorted_Sorted|].
  split; [symmetry; apply sorted_Permutation|].
  split; [exact Complete|]; split.
  - intros suite H; apply sorted_In, in_map_iff in H.
    destruct H as (job & <- & H); apply findall_test_regex_sound in H.
    destruct H as (pre & post & E & Hjob); exists pre, job, post; auto.
  - intros Camel pre post E; rewrite <- Camel.
    apply (Complete pre "FOO_BAR" ("true" ++ post)); [exact E | reflexivity].
Qed.

(** C3: the jobs [- RUN_E2E_TESTS_FOO_BAR=true], with the conversion of the
    sample checkout. *)
Lemma jobs_extractor_returns_sorted_suites_witness :
  exists suites,
    get_e2e_suite_names_from_jobs_travis_yml_file
      (Sample.checkout Sample.protractor_conf "- RUN_E2E_TESTS_FOO_BAR=true"
                       Sample.script)
      = ret suites /\
    In "fooBar" suites.
Proof.
  destruct (jobs_extractor_returns_sorted_suites
              (Sample.checkout Sample.protractor_conf
                               "- RUN_E2E_TESTS_FOO_BAR=true" Sample.script)
              (Sample.travis "- RUN_E2E_TESTS_FOO_BAR=true" Sample.script)
              (YMap [("global", YStr "");
                     ("jobs", YStr "- RUN_E2E_TESTS_FOO_BAR=true")])
              (YStr "- RUN_E2E_TESTS_FOO_BAR=true")
              eq_refl eq_refl eq_refl)
    as (suites & E & _ & _ & _ & _ & F).
  exists suites; split; [exact E | apply (F eq_refl "- " ""); reflexivity].
Defined.

(** ** The script pattern *)

Lemma match_here_one (o : Re.chr_op) (p : Re.pattern) (prev : option ascii)
      (c : ascii) (s : string) (st : Re.mstate) :
  Re.match_here (Re.ONE o :: p) prev (String c s) st =
    if Re.chr_matches o c then Re.match_here p (Some c) s (Re.read c st)
    else None.
Proof. reflexivity. Qed.

Lemma match_here_one_inv (o : Re.chr_op) (p : Re.pattern) (prev : option ascii)
      (s : string) (st : Re.mstate) (r : string * nat) :
  Re.match_here (Re.ONE o :: p) prev s st = Some r ->
  exists c s', s = String c s' /\ Re.chr_matches o c = true /\
               Re.match_here p (Some c) s' (Re.read c st) = Some r.
Proof.
  destruct s as [|c s']; [discriminate|]; rewrite match_here_one.
  destruct (Re.chr_matches o c) eqn:E; [|discriminate].
  intros H; exists c, s'; auto.
Qed.

Lemma e2e_test_suite_regex_match (prev : option ascii) (x : ascii)
      (name post : string) :
  x <> Str.newline ->
  Str.all (Re.chr_matches suite_name) name = true ->
  Re.match_here e2e_test_suite_regex prev
    ("bash scripts/run_e2e_tests" ++ String x
       ("sh --suite=" ++ String Str.dquote (name ++ String Str.dquote post)))
    Re.init
    = Some (name, 40 + String.length name).
Proof.
  intros Hx H; unfold e2e_test_suite_regex.
  rewrite match_here_literals, match_here_one; cbn [Re.chr_matches].
  destruct (Ascii.eqb_spec x Str.newline) as [|_]; [contradiction|].
  cbn [negb]; rewrite match_here_literals, match_here_one.
  cbn [Re.chr_matches]; rewrite Ascii.eqb_refl, match_here_mark.
  rewrite group_then_literal; [| reflexivity | exact H | lia].
  rewrite reads_state; reflexivity.
Qed.

Lemma e2e_test_suite_regex_match_inv (prev : option ascii) (s g : string) (n : nat) :
  Re.match_here e2e_test_suite_regex prev s Re.init = Some (g, n) ->
  exists x post,
    s = "bash scripts/run_e2e_tests" ++ String x
          ("sh --suite=" ++ String Str.dquote (g ++ String Str.dquote post)) /\
    x <> Str.newline /\
    Str.all (Re.chr_matches suite_name) g = true /\
    n = 40 + String.length g.
Proof.
  unfold e2e_test_suite_regex; intros M.
  destruct (match_here_literals_inv _ _ _ _ _ _ M) as (t & ->).
  rewrite match_here_literals in M.
  apply match_here_one_inv in M; destruct M as (x & t' & -> & Hx & M).
  destruct (match_here_literals_inv _ _ _ _ _ _ M) as (t & ->).
  rewrite match_here_literals in M.
  apply match_here_one_inv in M; destruct M as (q & t' & -> & Hq & M).
  cbn [Re.chr_matches] in Hx, Hq; apply Ascii.eqb_eq in Hq; subst q.
  rewrite match_here_mark in M.
  apply group_then_literal_inv in M; [|reflexivity].
  destruct M as (name & post & -> & Hname & _ & [= -> ->]).
  exists x, post; rewrite reads_state; repeat split; [|assumption].
  intros ->; discriminate Hx.
Qed.

(** No match that starts before an occurrence of [bash ] reaches into it:
    the pattern has one [b], its first character, and the [a] after an
    occurrence's [b] is not the [s] that follows the pattern's dot. *)
Lemma e2e_test_suite_regex_no_overlap (prev : option ascii) (b rest g : string)
      (n : nat) :
  b <> "" ->
  Re.match_here e2e_test_suite_regex prev (b ++ "bash " ++ rest) Re.init
    = Some (g, n) ->
  n <= String.length b.
Proof.
  intros Hb M; apply e2e_test_suite_regex_match_inv in M.
  destruct M as (x & post & E & _ & Hg & ->).
  unfold Str.dquote in *.
  destruct b as [|? b]; [congruence|].
  simpl in E; injection E as ? E; subst.
  do 38 peel b E.
  apply (group_stops_before (Re.chr_matches suite_name) "034" " " "bash") in E;
    [| reflexivity | discriminate | reflexivity | exact Hg].
  simpl; lia.
Qed.

Lemma findall_e2e_test_suite_regex_complete (pre name post : string) (x : ascii) :
  x <> Str.newline ->
  Str.all (Re.chr_matches suite_name) name = true ->
  In name (Re.findall e2e_test_suite_regex
             (pre ++ "bash scripts/run_e2e_tests" ++ String x
                ("sh --suite=" ++
                 String Str.dquote (name ++ String Str.dquote post)))).
Proof.
  intros Hx H; unfold Re.findall.
  eapply findall_from_complete;
    [lia | apply e2e_test_suite_regex_match; assumption |].
  intros a b g' n' _ Hb M.
  exact (e2e_test_suite_regex_no_overlap _ _ _ _ _ Hb M).
Qed.

Lemma findall_e2e_test_suite_regex_sound (s suite : string) :
  In suite (Re.findall e2e_test_suite_regex s) ->
  exists pre x post,
    s = pre ++ "bash scripts/run_e2e_tests" ++ String x
          ("sh --suite=" ++
           String Str.dquote (suite ++ String Str.dquote post)) /\
    x <> Str.newline /\
    Str.all (Re.chr_matches suite_name) suite = true.
Proof.
  intros H; apply findall_from_sound in H; destruct H as (a & b & n & -> & M).
  apply e2e_test_suite_regex_match_inv in M.
  destruct M as (x & post & -> & Hx & Hg & _).
  exists a, x, post; auto.
Qed.

(** C4: the script extractor returns a sorted list; it holds the name of
    every invocation [bash scripts/run_e2e_tests.sh --suite=] with a quoted
    name of letters, [_] and [-] in the script string, and nothing but the
    names of such invocations, where the character before [sh] is any but a
    newline; so [accessibility] for the invocation with that name. *)
Theorem script_extractor_returns_sorted_suites
    (py : imports)
    (travis_file_content script : yaml) :
  read_and_parse_travis_yml_file py
    = ret travis_file_content ->
  getitem travis_file_content "script" = ret script ->
  exists suites,
    get_e2e_suite_names_from_script_travis_yml_file py = ret suites /\
    Sorted Str.le suites /\
    Permutation suites
      (Re.findall e2e_test_suite_regex (convert_to_bytes py script)) /\
    (forall pre name post,
        convert_to_bytes py script
          = pre ++ "bash scripts/run_e2e_tests.sh --suite=" ++
            String Str.dquote (name ++ String Str.dquote post) ->
        Str.all (Re.chr_matches suite_name) name = true ->
        In name suites) /\
    (forall suite,
        In suite suites ->
        exists pre x post,
          convert_to_bytes py script
            = pre ++ "bash scripts/run_e2e_tests" ++ String x
                ("sh --suite=" ++
                 String Str.dquote (suite ++ String Str.dquote post)) /\
          x <> Str.newline /\
          Str.all (Re.chr_matches suite_name) suite = true) /\
    (forall pre post,
        convert_to_bytes py script
          = pre ++ "bash scripts/run_e2e_tests.sh --suite=" ++
            String Str.dquote ("accessibility" ++ String Str.dquote post) ->
        In "accessibility" suites).
Proof.
  intros Et Es; eexists; split.
  { unfold get_e2e_suite_names_from_script_travis_yml_file.
    rewrite Et; cbn [bind ret]; rewrite Es; cbn [bind ret]; reflexivity. }
  assert (Complete : forall pre name post,
             convert_to_bytes py script
               = pre ++ "bash scripts/run_e2e_tests.sh --suite=" ++
                 String Str.dquote (name ++ String Str.dquote post) ->
             Str.all (Re.chr_matches suite_name) name = true ->
             In name (Str.sorted (Re.findall e2e_test_suite_regex
                                                 (convert_to_bytes py script)))).
  { intros pre name post -> H; apply sorted_In.
    apply (findall_e2e_test_suite_regex_complete pre name post ".");
      [discriminate | exact H]. }
  split; [apply sorted_Sorted|].
  split; [symmetry; apply sorted_Permutation|].
  split; [exact Complete|]; split.
  - intros suite H; apply findall_e2e_test_suite_regex_sound.
    apply (proj1 (sorted_In _ _)); exact H.
  - intros pre post E; apply (Complete pre "accessibility" post);
      [exact E | reflexivity].
Qed.

(** C4: the script that is the one invocation of [accessibility]. *)
Lemma script_extractor_returns_sorted_suites_witness :
  exists suites,
    get_e2e_suite_names_from_script_travis_yml_file
      (Sample.checkout Sample.protractor_conf Sample.jobs
         ("bash scripts/run_e2e_tests.sh --suite=" ++
          Sample.quoted "accessibility"))
      = ret suites /\
    In "accessibility" suites.
Proof.
  destruct (script_extractor_returns_sorted_suites
              (Sample.checkout Sample.protractor_conf Sample.jobs
                 ("bash scripts/run_e2e_tests.sh --suite=" ++
                  Sample.quoted "accessibility"))
              (Sample.travis Sample.jobs
                 ("bash scripts/run_e2e_tests.sh --suite=" ++
                  Sample.quoted "accessibility"))
              (YStr ("bash scripts/run_e2e_tests.sh --suite=" ++
                     Sample.quoted "accessibility"))
              eq_refl eq_refl)
    as (suites & E & _ & _ & _ & _ & F).
  exists suites; split; [exact E | apply (F "" ""); reflexivity].
Defined.

(** ** The protractor patterns *)

Lemma suite_object_regex_match (prev : option ascii) (body post : string) :
  body <> "" ->
  Str.all (Re.chr_matches not_closing_brace) body = true ->
  Re.match_here suite_object_regex prev
                ("suites = {" ++ body ++ String "}" post) Re.init
    = Some (body, String.length ("suites = {" ++ body ++ "}")).
Proof.
  intros N H; unfold suite_object_regex.
  rewrite match_here_literals, match_here_mark, group_then_literal;
    [| reflexivity | exact H | destruct body; [congruence | simpl; lia]].
  rewrite reads_state; simpl; rewrite length_append; simpl.
  do 3 f_equal; lia.
Qed.

Lemma suite_object_regex_match_inv (prev : option ascii) (s g : string) (n : nat) :
  Re.match_here suite_object_regex prev s Re.init = Some (g, n) ->
  exists post,
    s = "suites = {" ++ g ++ String "}" post /\
    g <> "" /\
    Str.all (Re.chr_matches not_closing_brace) g = true /\
    n = String.length ("suites = {" ++ g ++ "}").
Proof.
  unfold suite_object_regex; intros M.
  destruct (match_here_literals_inv _ _ _ _ _ _ M) as (t & ->).
  rewrite match_here_literals, match_here_mark in M.
  apply group_then_literal_inv in M; [|reflexivity].
  destruct M as (x & post & -> & Hx & Hmin & [= -> ->]).
  rewrite reads_state; simpl; exists post; repeat split; [| assumption |].
  - intros ->; simpl in Hmin; lia.
  - rewrite length_append; simpl; lia.
Qed.

(** The match list is empty exactly when there is no such object. *)
Lemma findall_suite_object_regex_nil (content : string) :
  Re.findall suite_object_regex content = [] <-> ~ has_suite_object content.
Proof.
  split.
  - intros E (pre & body & post & -> & N & H).
    revert E; eapply findall_from_nonempty.
    apply suite_object_regex_match; assumption.
  - intros H; apply findall_from_no_match; intros a b -> .
    destruct (Re.match_here _ _ b Re.init) as [[g n]|] eqn:M; [|reflexivity].
    exfalso; apply H; apply suite_object_regex_match_inv in M.
    destruct M as (post & -> & N & Hg & _); exists a, g, post; auto.
Qed.

(** Before the first [suites = {] of the text no attempt succeeds. *)
Lemma suite_object_regex_first (prev : option ascii) (a b rest : string) :
  ~ Str.occurs "suites = {" (a ++ b) ->
  b <> "" ->
  Re.match_here suite_object_regex prev (b ++ "suites = {" ++ rest) Re.init
    = None.
Proof.
  intros H Hb.
  destruct (Re.match_here _ _ _ Re.init) as [[g n]|] eqn:M; [|reflexivity].
  exfalso; apply suite_object_regex_match_inv in M.
  destruct M as (post & E & _).
  destruct b as [|? b]; [congruence|].
  simpl in E; injection E as ? E; subst.
  do 9 peel b E.
  apply H; exists a, b; reflexivity.
Qed.

Lemma findall_suite_object_regex_first (pre body post : string) :
  ~ Str.occurs "suites = {" pre ->
  body <> "" ->
  Str.all (Re.chr_matches not_closing_brace) body = true ->
  first_item (Re.findall suite_object_regex
                (pre ++ "suites = {" ++ body ++ String "}" post))
    = ret body.
Proof.
  intros H N Hb; unfold Re.findall.
  rewrite findall_from_unmatched.
  - change ("suites = {" ++ body ++ String "}" post)
      with ("suites = {" ++ body ++ "}" ++ post).
    rewrite <- 2 append_assoc.
    rewrite (findall_from_match _ _ _ _ body); [reflexivity | |].
    + destruct body; discriminate.
    + rewrite 2 append_assoc; apply suite_object_regex_match; assumption.
  - intros a b -> Hb'; apply (suite_object_regex_first _ a); assumption.
Qed.

Lemma match_here_boundary (p : Re.pattern) (prev : option ascii) (s : string)
      (st : Re.mstate) :
  Re.match_here (Re.AT_BOUNDARY :: p) prev s st =
    if xorb (Re.is_word prev) (Re.is_word (Str.first_char s))
    then Re.match_here p prev s st else None.
Proof. reflexivity. Qed.

Lemma key_regex_match (prev : option ascii) (key rest : string) :
  xorb (Re.is_word prev) (Re.is_word (Str.first_char (key ++ String ":" rest)))
    = true ->
  Str.all (Re.chr_matches suite_name) key = true ->
  Re.match_here key_regex prev (key ++ String ":" rest) Re.init
    = Some (key, String.length (key ++ ":")).
Proof.
  intros B H; unfold key_regex.
  rewrite match_here_boundary, B, match_here_mark, group_then_literal;
    [| reflexivity | exact H | lia].
  rewrite reads_state, length_append; simpl; do 2 f_equal; lia.
Qed.

Lemma key_regex_match_inv (prev : option ascii) (s g : string) (n : nat) :
  Re.match_here key_regex prev s Re.init = Some (g, n) ->
  exists post,
    s = g ++ String ":" post /\
    Str.all (Re.chr_matches suite_name) g = true /\
    xorb (Re.is_word prev) (Re.is_word (Str.first_char s)) = true /\
    n = S (String.length g).
Proof.
  unfold key_regex; rewrite match_here_boundary.
  destruct (xorb _ _) eqn:B; [|discriminate].
  rewrite match_here_mark; intros M.
  apply group_then_literal_inv in M; [|reflexivity].
  destruct M as (x & post & -> & Hx & _ & [= -> ->]).
  rewrite reads_state; simpl; exists post; auto.
Qed.

(** Text that is read into a group, up to the closing literal, is text the
    repeat accepts. *)
Lemma prefix_of_group (cls : ascii -> bool) (c : ascii) (b t g post : string) :
  Str.all cls g = true ->
  Str.all (fun x => negb (Ascii.eqb x c)) b = true ->
  b ++ t = g ++ String c post ->
  Str.all cls b = true.
Proof.
  revert g; induction b as [|x b IH]; intros g Hg Hb E; [reflexivity|].
  simpl in Hb; apply andb_true_iff in Hb; destruct Hb as [Hx Hb].
  destruct g as [|y g]; simpl in E; injection E as -> E.
  - rewrite Ascii.eqb_refl in Hx; discriminate.
  - simpl in *; apply andb_true_iff in Hg; destruct Hg as [-> Hg].
    apply (IH g); assumption.
Qed.

Lemma last_char_all (q : ascii -> bool) (prev : option ascii) (b : string) :
  b <> "" -> Str.all q b = true ->
  exists c, Str.last_char prev b = Some c /\ q c = true.
Proof.
  revert prev; induction b as [|x b IH]; intros prev N H; [congruence|].
  simpl in *; apply andb_true_iff in H; destruct H as [Hx H].
  destruct b as [|y b]; [exists x; auto|].
  apply IH; [discriminate | exact H].
Qed.

Lemma all_weaken (q q' : ascii -> bool) (s : string) :
  (forall c, q c = true -> q' c = true) ->
  Str.all q s = true -> Str.all q' s = true.
Proof.
  intros W; induction s as [|c s IH]; simpl; [auto|].
  rewrite !andb_true_iff; intros [H1 H2]; auto.
Qed.

Lemma plain_no_colon (c : ascii) :
  plain c = true -> negb (Ascii.eqb c ":") = true.
Proof. unfold plain; rewrite andb_true_iff; tauto. Qed.

Lemma is_word_ident (c : option ascii) :
  is_ident c = false -> Re.is_word c = false.
Proof.
  destruct c as [c|]; [|reflexivity]; unfold is_ident, Re.is_word, suite_name.
  cbn [Re.chr_matches existsb fst snd xorb].
  fold (Str.is_lower c) (Str.is_upper c).
  destruct (Str.is_lower c), (Str.is_upper c), (Str.is_digit c),
    (Str.in_range "-" "-" c), (Str.in_range "_" "_" c) eqn:U;
    simpl; try discriminate; intros _.
  destruct (Ascii.eqb_spec c "_") as [->|_]; [discriminate U | reflexivity].
Qed.

(** No key starts inside the text before a key. *)
Lemma findall_key_regex_gap (prev : option ascii) (gap rest : string) :
  gap_ok gap = true ->
  Re.findall_from key_regex 0 prev (gap ++ rest) =
    Re.findall_from key_regex 0 (Str.last_char prev gap) rest.
Proof.
  unfold gap_ok; rewrite andb_true_iff, negb_true_iff; intros [Hp Hl].
  apply findall_from_unmatched; intros a b -> Hb.
  destruct (Re.match_here _ _ _ Re.init) as [[g n]|] eqn:M; [|reflexivity].
  exfalso; apply key_regex_match_inv in M; destruct M as (post & E & Hg & _).
  rewrite all_append in Hp; apply andb_true_iff in Hp; destruct Hp as [_ Hp].
  apply (all_weaken _ _ _ plain_no_colon) in Hp.
  pose proof (prefix_of_group _ _ _ _ _ _ Hg Hp E) as Hb'.
  destruct (last_char_all _ (Str.last_char None a) _ Hb Hb') as (c & Hc & Hcls).
  rewrite last_char_append, Hc in Hl; cbn [is_ident] in Hl.
  rewrite Hcls in Hl; discriminate.
Qed.

(** After the last colon there is no key. *)
Lemma findall_key_regex_tail (prev : option ascii) (tail : string) :
  Str.all plain tail = true ->
  Re.findall_from key_regex 0 prev tail = [].
Proof.
  intros H; apply findall_from_no_match; intros a b -> .
  destruct (Re.match_here _ _ _ Re.init) as [[g n]|] eqn:M; [|reflexivity].
  exfalso; apply key_regex_match_inv in M; destruct M as (post & -> & _).
  rewrite !all_append in H; simpl in H.
  rewrite !andb_false_r in H; discriminate.
Qed.

(** The keys of a well-formed body, in the order of the text. *)
Lemma findall_key_regex_object_body (entries : list (string * string))
      (tail : string) (prev : option ascii) :
  is_ident prev = false ->
  well_formed entries tail = true ->
  Re.findall_from key_regex 0 prev (object_body entries tail)
    = map snd entries.
Proof.
  unfold well_formed; rewrite andb_true_iff; intros Hprev [He Ht].
  revert prev Hprev; induction entries as [|[gap key] entries IH];
    intros prev Hprev; simpl.
  - apply findall_key_regex_tail; exact Ht.
  - simpl in He; rewrite !andb_true_iff in He.
    destruct He as [[Hgap Hkey] He].
    rewrite findall_key_regex_gap by exact Hgap.
    assert (Hprev' : is_ident (Str.last_char prev gap) = false).
    { unfold gap_ok in Hgap; rewrite andb_true_iff, negb_true_iff in Hgap.
      destruct gap; [exact Hprev | apply Hgap]. }
    unfold key_ok in Hkey; rewrite andb_true_iff in Hkey.
    destruct Hkey as [Hcls Hfirst].
    change (key ++ String ":" (object_body entries tail))
      with (key ++ ":" ++ object_body entries tail).
    rewrite <- append_assoc.
    rewrite (findall_from_match _ _ _ _ key).
    + rewrite last_char_append; simpl; rewrite (IH He); reflexivity.
    + destruct key; discriminate.
    + rewrite append_assoc; apply key_regex_match; [|exact Hcls].
      rewrite (is_word_ident _ Hprev').
      destruct key; [discriminate Hfirst | exact Hfirst].
Qed.

Lemma in_range_same (a c : ascii) : Str.in_range a a c = true -> c = a.
Proof.
  unfold Str.in_range; rewrite andb_true_iff; intros [H1 H2].
  apply Ascii.leb_antisym; assumption.
Qed.

Lemma plain_not_closing_brace (c : ascii) :
  plain c = true -> Re.chr_matches not_closing_brace c = true.
Proof.
  unfold plain; rewrite andb_true_iff, !negb_true_iff; intros [_ H].
  cbn [Re.chr_matches not_closing_brace existsb fst snd].
  destruct (Str.in_range "}" "}" c) eqn:R; [|reflexivity].
  apply in_range_same in R; subst; discriminate H.
Qed.

Lemma suite_name_not_closing_brace (c : ascii) :
  Re.chr_matches suite_name c = true ->
  Re.chr_matches not_closing_brace c = true.
Proof.
  intros H; cbn [Re.chr_matches not_closing_brace existsb fst snd].
  destruct (Str.in_range "}" "}" c) eqn:R; [|reflexivity].
  apply in_range_same in R; subst; discriminate H.
Qed.

Lemma object_body_no_closing_brace (entries : list (string * string))
      (tail : string) :
  well_formed entries tail = true ->
  Str.all (Re.chr_matches not_closing_brace) (object_body entries tail) = true.
Proof.
  unfold well_formed; rewrite andb_true_iff; intros [He Ht].
  induction entries as [|[gap key] entries IH]; simpl.
  - apply (all_weaken _ _ _ plain_not_closing_brace); exact Ht.
  - simpl in He; rewrite !andb_true_iff in He; destruct He as [[Hg Hk] He].
    unfold gap_ok, key_ok in *; rewrite andb_true_iff in Hg, Hk.
    rewrite !all_append; simpl; rewrite (IH He), !andb_true_r.
    apply andb_true_iff; split.
    + apply (all_weaken _ _ _ plain_not_closing_brace), Hg.
    + apply (all_weaken _ _ _ suite_name_not_closing_brace), Hk.
Qed.

(** Text that lies inside a group is text the repeat accepts. *)
Lemma inside_of_group (cls : ascii -> bool) (b t g t' : string) :
  b ++ t = g ++ t' ->
  String.length b <= String.length g ->
  Str.all cls g = true ->
  Str.all cls b = true.
Proof.
  revert g; induction b as [|x b IH]; intros g E L Hg; [reflexivity|].
  destruct g as [|y g]; simpl in *; [lia|].
  injection E as -> E; apply andb_true_iff in Hg; destruct Hg as [-> Hg].
  apply (IH g); (assumption || lia).
Qed.

(** No match that starts before a key reaches into it, when the character
    before the key is none of [a-zA-Z0-9_-]. *)
Lemma key_regex_no_overlap (prev : option ascii) (a b rest g : string) (n : nat) :
  is_ident (Str.last_char None (a ++ b)) = false ->
  b <> "" ->
  Re.match_here key_regex prev (b ++ rest) Re.init = Some (g, n) ->
  n <= String.length b.
Proof.
  intros Hl Hb M; apply key_regex_match_inv in M.
  destruct M as (post & E & Hg & _ & ->).
  destruct (Nat.le_gt_cases (String.length b) (String.length g)) as [L|L]; [|lia].
  exfalso; pose proof (inside_of_group _ _ _ _ _ E L Hg) as Hb'.
  destruct (last_char_all _ (Str.last_char None a) _ Hb Hb') as (c & Hc & Hcls).
  rewrite last_char_append, Hc in Hl; cbn [is_ident] in Hl.
  rewrite Hcls in Hl; discriminate.
Qed.

Lemma findall_key_regex_complete (before key after : string) :
  key_ok key = true ->
  is_ident (Str.last_char None before) = false ->
  In key (Re.findall key_regex (before ++ key ++ String ":" after)).
Proof.
  unfold key_ok; rewrite andb_true_iff; intros [Hcls Hfirst] Hl.
  unfold Re.findall; eapply findall_from_complete; [lia | |].
  - apply key_regex_match; [|exact Hcls].
    rewrite (is_word_ident _ Hl).
    destruct key; [discriminate Hfirst | exact Hfirst].
  - intros a b g' n' -> Hb M; exact (key_regex_no_overlap _ a _ _ _ _ Hl Hb M).
Qed.

Lemma findall_key_regex_sound (body key : string) :
  In key (Re.findall key_regex body) ->
  exists before after,
    body = before ++ key ++ String ":" after /\
    Str.all (Re.chr_matches suite_name) key = true.
Proof.
  intros H; apply findall_from_sound in H; destruct H as (a & b & n & -> & M).
  apply key_regex_match_inv in M; destruct M as (post & -> & Hg & _).
  exists a, post; auto.
Qed.

(** C5, as stated, fails: the configuration is the object
    [suites = { e2e: [...] }], whose one key is [e2e], and the protractor
    extractor returns the empty name instead of the key.  The run of
    [a-zA-Z_-] that starts at the key stops at the digit, where no colon
    follows, and the only word boundary from which such a run reaches the
    colon is the one just before the colon. *)
Lemma key_with_digit_is_not_returned :
  let entries := [(" ", "e2e")] in
  let content := "suites = {" ++ object_body entries " [...] " ++ "}" in
  let py := Sample.checkout content Sample.jobs Sample.script in
  read_protractor_conf_file py = ret content /\
  has_suite_object content /\
  Str.sorted (map snd entries) = ["e2e"] /\
  get_e2e_suite_names_from_protractor_file py = ret [""] /\
  get_e2e_suite_names_from_protractor_file py
    <> ret (Str.sorted (map snd entries)).
Proof.
  cbv zeta; split; [reflexivity|]; split; [|split; [reflexivity|]].
  - exists "", " e2e: [...] ", ""; split; [reflexivity|].
    split; [discriminate | reflexivity].
  - assert (E : get_e2e_suite_names_from_protractor_file
                  (Sample.checkout
                     ("suites = {" ++ object_body [(" ", "e2e")] " [...] "
                                   ++ "}")
                     Sample.jobs Sample.script)
                = ret [""]) by (vm_compute; reflexivity).
    split; [exact E | rewrite E; discriminate].
Qed.

(** C5 (amended): for a configuration whose first [suites = {] opens an
    object with a body that is not empty and is made of keys and of the text
    around them, each key a name of [a-zA-Z_-] that starts with a letter or
    [_] and is followed at once by a colon, the text before each key without
    colon or closing brace and not ending in a character of [a-zA-Z0-9_-],
    the text after the last colon without colon or closing brace, the
    protractor extractor returns the sorted list of the keys: a list in
    ascending order that holds the keys, each as often as it is a key of the
    object.  The instance below is the object with the keys [alpha] and
    [betaGamma]. *)
Theorem protractor_extractor_returns_sorted_keys
    (py : imports)
    (pre post : string)
    (entries : list (string * string)) (tail : string) :
  read_protractor_conf_file py
    = ret (pre ++ "suites = {" ++ object_body entries tail ++ String "}" post) ->
  ~ Str.occurs "suites = {" pre ->
  object_body entries tail <> "" ->
  well_formed entries tail = true ->
  exists suites,
    get_e2e_suite_names_from_protractor_file py
      = ret suites /\
    suites = Str.sorted (map snd entries) /\
    Sorted Str.le suites /\
    Permutation suites (map snd entries).
Proof.
  intros Er Hpre N W; exists (Str.sorted (map snd entries)); split.
  { unfold get_e2e_suite_names_from_protractor_file.
    rewrite Er; cbn [bind ret].
    rewrite (findall_suite_object_regex_first _ _ _ Hpre N
               (object_body_no_closing_brace _ _ W)); cbn [bind ret].
    unfold Re.findall.
    rewrite findall_key_regex_object_body by (reflexivity || exact W).
    reflexivity. }
  split; [reflexivity|].
  split; [apply sorted_Sorted | symmetry; apply sorted_Permutation].
Qed.

(** C5 (amended): the object of the two keys [alpha] and [betaGamma]. *)
Lemma protractor_extractor_returns_sorted_keys_witness :
  get_e2e_suite_names_from_protractor_file
    (Sample.checkout "var suites = { alpha: [...], betaGamma: [...] };"
                     Sample.jobs Sample.script)
  = ret ["alpha"; "betaGamma"].
Proof.
  destruct (protractor_extractor_returns_sorted_keys
              (Sample.checkout
                 "var suites = { alpha: [...], betaGamma: [...] };"
                 Sample.jobs Sample.script)
              "var " ";" [(" ", "alpha"); (" [...], ", "betaGamma")] " [...] "
              eq_refl)
    as (suites & E & K & _ & _).
  - intros (a & b & H).
    destruct a as [|? a]; [discriminate H|]; injection H as _ H.
    destruct a as [|? a]; [discriminate H|]; injection H as _ H.
    destruct a as [|? a]; [discriminate H|]; injection H as _ H.
    destruct a as [|? a]; [discriminate H|]; injection H as _ H.
    destruct a; discriminate H.
  - discriminate.
  - reflexivity.
  - rewrite E, K; reflexivity.
Defined.

(** C9: when the configuration has no [suites = {] followed by a non-empty
    body without closing brace and by a closing brace, the match list of the
    first pattern is empty and the protractor extractor raises
    [IndexError]. *)
Theorem protractor_extractor_raises_IndexError
    (py : imports)
    (content : string) :
  read_protractor_conf_file py = ret content ->
  ~ has_suite_object content ->
  Re.findall suite_object_regex content = [] /\
  get_e2e_suite_names_from_protractor_file py
    = raise IndexError.
Proof.
  intros Er H; apply findall_suite_object_regex_nil in H; split; [exact H|].
  unfold get_e2e_suite_names_from_protractor_file.
  rewrite Er; cbn [bind ret]; rewrite H; reflexivity.
Qed.

(** C9: an object with an empty body, which the pattern does not match. *)
Lemma protractor_extractor_raises_IndexError_witness :
  get_e2e_suite_names_from_protractor_file
    (Sample.checkout "var suites = {};" Sample.jobs Sample.script)
  = raise IndexError.
Proof.
  apply (protractor_extractor_raises_IndexError _ "var suites = {};").
  - reflexivity.
  - apply findall_suite_object_regex_nil; reflexivity.
Defined.

(** With such an object the extractor returns a list. *)
Lemma protractor_extractor_returns
    (py : imports)
    (content : string) :
  read_protractor_conf_file py = ret content ->
  has_suite_object content ->
  exists suites,
    get_e2e_suite_names_from_protractor_file py = ret suites.
Proof.
  intros Er H; unfold get_e2e_suite_names_from_protractor_file.
  rewrite Er; cbn [bind ret].
  destruct (Re.findall suite_object_regex content) as [|g l] eqn:F.
  - apply findall_suite_object_regex_nil in F; contradiction.
  - eexists; reflexivity.
Qed.

(** ** The limits of the patterns, on concrete files *)

(** The dot before [sh] is a wild card: an invocation of another script
    whose name differs in that one character is read too. *)
Lemma script_extractor_dot_is_any_character :
  get_e2e_suite_names_from_script_travis_yml_file
    (Sample.checkout Sample.protractor_conf Sample.jobs
       ("bash scripts/run_e2e_tests_sh --suite=" ++ Sample.quoted "users"))
  = ret ["users"].
Proof. vm_compute; reflexivity. Qed.

(** A job name with a digit is not read: [A-Z_] stops at the digit, and no
    [=] follows. *)
Lemma jobs_extractor_skips_names_with_digits :
  get_e2e_suite_names_from_jobs_travis_yml_file
    (Sample.checkout Sample.protractor_conf
       "- RUN_E2E_TESTS_ACCESSIBILITY=true RUN_E2E_TESTS_E2E_SUITE=true"
       Sample.script)
  = ret ["accessibility"].
Proof. vm_compute; reflexivity. Qed.

(** A key with a blank before its colon is not read: the run of
    [a-zA-Z_-] that starts at the key stops at the blank, and no word
    boundary stands just before the colon. *)
Lemma protractor_extractor_blank_before_colon :
  get_e2e_suite_names_from_protractor_file
    (Sample.checkout "suites = { alpha : [...], beta: [...] }"
                     Sample.jobs Sample.script)
  = ret ["beta"].
Proof. vm_compute; reflexivity. Qed.

(** A colon in a value makes the word before it a name of the list. *)
Lemma protractor_extractor_colon_in_value :
  get_e2e_suite_names_from_protractor_file
    (Sample.checkout "suites = { users: ['http://localhost'] }"
                     Sample.jobs Sample.script)
  = ret ["http"; "users"].
Proof. vm_compute; reflexivity. Qed.

(** The object ends at the first closing brace, so a nested object cuts it
    short. *)
Lemma protractor_extractor_nested_braces :
  get_e2e_suite_names_from_protractor_file
    (Sample.checkout "suites = { users: [{ a: 1 }], library: [] }"
                     Sample.jobs Sample.script)
  = ret ["a"; "users"].
Proof. vm_compute; reflexivity. Qed.

(** A missing key of the travis mapping is a [KeyError], and a read that
    fails is passed on. *)
Lemma extractors_pass_errors_on :
  get_e2e_suite_names_from_script_travis_yml_file
    {| getcwd := "/oppia";
       open_file_read := fun _ => ret "";
       dict_from_yaml := fun _ => ret (YMap [("env", YMap [])]);
       convert_to_bytes := Sample.to_bytes;
       snake_case_to_camel_case := Utils.snake_case_to_camel_case |}
  = raise (KeyError "script") /\
  get_e2e_suite_names_from_jobs_travis_yml_file
    {| getcwd := "/oppia";
       open_file_read := fun _ => ret "";
       dict_from_yaml := fun _ => ret (YMap [("env", YMap [])]);
       convert_to_bytes := Sample.to_bytes;
       snake_case_to_camel_case := Utils.snake_case_to_camel_case |}
  = raise (KeyError "jobs") /\
  get_e2e_suite_names_from_protractor_file
    {| getcwd := "/elsewhere";
       open_file_read := Sample.read_file Sample.protractor_conf;
       dict_from_yaml := fun _ => raise YAMLError;
       convert_to_bytes := Sample.to_bytes;
       snake_case_to_camel_case := Utils.snake_case_to_camel_case |}
  = raise IOError.
Proof. repeat split. Qed.

(** ** [main] as a whole *)

(** [main] returns exactly when the three extractors return, the two
    travis lists are one non-empty list that holds the sample suite, and
    the protractor list is that list and the four excluded suites; it has
    then printed its two lines. *)
Theorem main_returns_iff (py : imports) :
  snd (main py) = ret tt <->
  exists protractor_test_suites yaml_jobs,
    get_e2e_suite_names_from_protractor_file py = ret protractor_test_suites /\
    get_e2e_suite_names_from_jobs_travis_yml_file py = ret yaml_jobs /\
    get_e2e_suite_names_from_script_travis_yml_file py = ret yaml_jobs /\
    remove_each TEST_SUITES_NOT_RUN_ON_TRAVIS protractor_test_suites
      = ret yaml_jobs /\
    yaml_jobs <> [] /\
    In SAMPLE_TEST_SUITE_THAT_IS_KNOWN_TO_EXIST yaml_jobs /\
    fst (main py) = printed_on_success.
Proof.
  split.
  - unfold main.
    destruct (get_e2e_suite_names_from_protractor_file py) as [e|p] eqn:Ep;
      [discriminate|].
    destruct (get_e2e_suite_names_from_jobs_travis_yml_file py) as [e|j] eqn:Ej;
      [discriminate|].
    destruct (get_e2e_suite_names_from_script_travis_yml_file py) as [e|s] eqn:Es;
      [discriminate|].
    cbn [bind ret].
    destruct (main_checks p j s) as [e|[]] eqn:M; [discriminate|].
    apply main_checks_passes in M; destruct M as (R & <- & N & I).
    intros _; exists p, j; repeat split; assumption.
  - intros (p & j & Ep & Ej & Es & R & N & I & _).
    rewrite (main_extracted _ _ _ _ Ep Ej Es).
    assert (M : main_checks p j j = ret tt) by (apply main_checks_passes; auto).
    rewrite M; reflexivity.
Qed.

(** ** The order of [sorted] is a total order

    [String.leb] is the lexicographic order of the standard library's
    ordered type of strings, so it is transitive; with that a sorted list is
    determined by its elements. *)

Lemma compare_as_OT (a b : string) :
  String.compare a b = String_as_OT.compare a b.
Proof.
  revert b; induction a as [|x a IH]; intros [|y b]; reflexivity.
Qed.

Lemma le_iff (a b : string) : Str.le a b <-> a = b \/ String_as_OT.lt a b.
Proof.
  unfold Str.le, String.leb; rewrite compare_as_OT.
  destruct (String_as_OT.compare_spec a b) as [E|L|G].
  - split; auto.
  - split; auto.
  - split; [discriminate|]; intros [E|L]; exfalso.
    + subst; exact (StrictOrder_Irreflexive _ G).
    + exact (StrictOrder_Irreflexive _ (StrictOrder_Transitive _ _ _ L G)).
Qed.

Lemma le_trans (a b c : string) : Str.le a b -> Str.le b c -> Str.le a c.
Proof.
  rewrite !le_iff; intros [->|Hab] [->|Hbc]; auto.
  right; exact (StrictOrder_Transitive _ _ _ Hab Hbc).
Qed.

Lemma Sorted_all_le (x : string) (l : list string) :
  Sorted Str.le (x :: l) -> Forall (Str.le x) l.
Proof.
  intros H; apply Sorted_StronglySorted in H; [|exact le_trans].
  inversion H; assumption.
Qed.

(** Two sorted lists with the same elements, each as often, are equal. *)
Lemma Sorted_unique (l1 l2 : list string) :
  Sorted Str.le l1 -> Sorted Str.le l2 -> Permutation l1 l2 -> l1 = l2.
Proof.
  revert l2; induction l1 as [|x l1 IH]; intros l2 S1 S2 P.
  - apply Permutation_nil in P; congruence.
  - destruct l2 as [|y l2]; [symmetry in P; apply Permutation_nil in P; discriminate|].
    assert (x = y) as ->.
    { pose proof (Sorted_all_le _ _ S1) as F1.
      pose proof (Sorted_all_le _ _ S2) as F2.
      rewrite Forall_forall in F1, F2.
      assert (Ix : In x (y :: l2)) by (eapply Permutation_in; [exact P | left; auto]).
      assert (Iy : In y (x :: l1))
        by (eapply Permutation_in; [symmetry; exact P | left; auto]).
      destruct Ix as [->|Ix]; [reflexivity|].
      destruct Iy as [->|Iy]; [reflexivity|].
      apply String.leb_antisym; [apply F1, Iy | apply F2, Ix]. }
    f_equal; apply IH.
    + inversion S1; assumption.
    + inversion S2; assumption.
    + eapply Permutation_cons_inv; exact P.
Qed.

Lemma sorted_eq_iff (l1 l2 : list string) :
  Str.sorted l1 = Str.sorted l2 <-> Permutation l1 l2.
Proof.
  split; intros H.
  - rewrite (sorted_Permutation l1), H; symmetry; apply sorted_Permutation.
  - apply Sorted_unique; try apply sorted_Sorted.
    rewrite <- (sorted_Permutation l1), <- (sorted_Permutation l2); exact H.
Qed.

Lemma sorted_of_Sorted (l : list string) : Sorted Str.le l -> Str.sorted l = l.
Proof.
  intros H; apply Sorted_unique;
    [apply sorted_Sorted | exact H | symmetry; apply sorted_Permutation].
Qed.

(** ** The removal loop on lists *)

Lemma list_remove_Permutation (x : string) (l l' : list string) :
  list_remove x l = ret l' -> Permutation l (x :: l').
Proof.
  intros E; destruct (list_remove_inv _ _ _ E) as [[E' _]|(l1 & l2 & -> & _ & E')];
    [discriminate E'|].
  injection E' as ->; symmetry; apply Permutation_middle.
Qed.

Lemma list_remove_present (x : string) (l : list string) :
  In x l -> exists l', list_remove x l = ret l'.
Proof.
  intros H; destruct (list_remove x l) as [e|l'] eqn:E; [|exists l'; reflexivity].
  destruct (list_remove_inv _ _ _ E) as [[_ N]|(? & ? & _ & _ & E')];
    [contradiction | discriminate E'].
Qed.

Lemma list_remove_other (x y : string) (l l' : list string) :
  list_remove x l = ret l' -> y <> x -> In y l -> In y l'.
Proof.
  intros E N H; apply list_remove_Permutation in E.
  apply (Permutation_in _ E) in H; destruct H as [->|H]; [congruence | exact H].
Qed.

Lemma list_remove_Sorted (x : string) (l l' : list string) :
  Sorted Str.le l -> list_remove x l = ret l' -> Sorted Str.le l'.
Proof.
  intros S E; apply StronglySorted_Sorted.
  apply Sorted_StronglySorted in S; [|exact le_trans].
  revert l' E; induction S as [|y l S IH F]; intros l' E; simpl in E;
    [discriminate|].
  destruct (String.eqb y x); [injection E as <-; exact S|].
  destruct (list_remove x l) as [e|l''] eqn:R; [discriminate|].
  injection E as <-; constructor; [apply IH; reflexivity|].
  rewrite Forall_forall in *; intros z Hz; apply F.
  eapply list_remove_subset; eassumption.
Qed.

Lemma remove_each_Permutation (excluded l l' : list string) :
  remove_each excluded l = ret l' -> Permutation l (excluded ++ l')%list.
Proof.
  revert l; induction excluded as [|x excluded IH]; intros l; simpl.
  - intros [= ->]; reflexivity.
  - destruct (list_remove x l) as [e|l1] eqn:E; simpl; [discriminate|].
    intros H; apply IH in H; apply list_remove_Permutation in E.
    rewrite E, H; reflexivity.
Qed.

Lemma remove_each_Sorted (excluded l l' : list string) :
  Sorted Str.le l -> remove_each excluded l = ret l' -> Sorted Str.le l'.
Proof.
  revert l; induction excluded as [|x excluded IH]; intros l S; simpl.
  - intros [= <-]; exact S.
  - destruct (list_remove x l) as [e|l1] eqn:E; simpl; [discriminate|].
    apply IH; eapply list_remove_Sorted; eassumption.
Qed.

Lemma remove_each_present (excluded l : list string) :
  NoDup excluded -> (forall x, In x excluded -> In x l) ->
  exists l', remove_each excluded l = ret l'.
Proof.
  revert l; induction excluded as [|x excluded IH]; intros l D H; simpl.
  - exists l; reflexivity.
  - destruct (list_remove_present x l) as (l1 & E); [apply H; left; auto|].
    rewrite E; simpl; inversion D as [|? ? Hx D']; subst.
    apply IH; [exact D'|].
    intros y Hy; eapply list_remove_other; [exact E | | apply H; right; exact Hy].
    intros ->; contradiction.
Qed.

(** The removal loop returns exactly when the protractor list holds each of
    the four excluded suites; what it returns is the list without one
    occurrence of each, in the same order, and still sorted. *)
Theorem removal_loop_takes_one_of_each (protractor_test_suites : list string) :
  ((exists adjusted,
       remove_each TEST_SUITES_NOT_RUN_ON_TRAVIS protractor_test_suites
         = ret adjusted) <->
   (forall excluded_test,
       In excluded_test TEST_SUITES_NOT_RUN_ON_TRAVIS ->
       In excluded_test protractor_test_suites)) /\
  (forall adjusted,
      remove_each TEST_SUITES_NOT_RUN_ON_TRAVIS protractor_test_suites
        = ret adjusted ->
      Permutation protractor_test_suites
                  (TEST_SUITES_NOT_RUN_ON_TRAVIS ++ adjusted)%list /\
      List.length protractor_test_suites = 4 + List.length adjusted /\
      (Sorted Str.le protractor_test_suites -> Sorted Str.le adjusted)).
Proof.
  split; [split|].
  - intros (adjusted & E) x Hx.
    destruct (in_dec string_dec x protractor_test_suites) as [H|H]; [exact H|].
    rewrite (remove_each_missing _ _ x Hx H) in E; discriminate E.
  - apply remove_each_present.
    repeat constructor; simpl; intuition discriminate.
  - intros adjusted E; split; [apply remove_each_Permutation; exact E|].
    split; [apply remove_each_length in E; exact E|].
    intros S; exact (remove_each_Sorted _ _ _ S E).
Qed.

(** ** What the extractors return is sorted *)

Lemma jobs_extractor_Sorted (py : imports) (l : list string) :
  get_e2e_suite_names_from_jobs_travis_yml_file py = ret l -> Sorted Str.le l.
Proof.
  unfold get_e2e_suite_names_from_jobs_travis_yml_file.
  destruct (read_and_parse_travis_yml_file py) as [e|t]; [discriminate|].
  cbn [bind ret]; destruct (getitem t "env") as [e|env]; [discriminate|].
  cbn [bind ret]; destruct (getitem env "jobs") as [e|jobs]; [discriminate|].
  intros [= <-]; apply sorted_Sorted.
Qed.

Lemma script_extractor_Sorted (py : imports) (l : list string) :
  get_e2e_suite_names_from_script_travis_yml_file py = ret l -> Sorted Str.le l.
Proof.
  unfold get_e2e_suite_names_from_script_travis_yml_file.
  destruct (read_and_parse_travis_yml_file py) as [e|t]; [discriminate|].
  cbn [bind ret]; destruct (getitem t "script") as [e|script]; [discriminate|].
  intros [= <-]; apply sorted_Sorted.
Qed.

Lemma protractor_extractor_Sorted (py : imports) (l : list string) :
  get_e2e_suite_names_from_protractor_file py = ret l -> Sorted Str.le l.
Proof.
  unfold get_e2e_suite_names_from_protractor_file.
  destruct (read_protractor_conf_file py) as [e|content]; [discriminate|].
  cbn [bind ret].
  destruct (first_item (Re.findall suite_object_regex content)) as [e|body];
    [discriminate|].
  intros [= <-]; apply sorted_Sorted.
Qed.

(** On sorted lists the checks of [main] compare multisets. *)
Lemma main_checks_sorted_iff (p j s : list string) :
  Sorted Str.le p -> Sorted Str.le j -> Sorted Str.le s ->
  (main_checks p j s = ret tt <->
   Permutation p (TEST_SUITES_NOT_RUN_ON_TRAVIS ++ j)%list /\
   Permutation j s /\
   In SAMPLE_TEST_SUITE_THAT_IS_KNOWN_TO_EXIST j).
Proof.
  intros Sp Sj Ss; split.
  - intros M; apply main_checks_passes in M; destruct M as (R & <- & _ & I).
    split; [apply remove_each_Permutation; exact R|].
    split; [apply Permutation_refl | exact I].
  - intros (Pp & Pj & I); apply main_checks_passes.
    destruct (remove_each_present TEST_SUITES_NOT_RUN_ON_TRAVIS p) as (q & R).
    { repeat constructor; simpl; intuition discriminate. }
    { intros x Hx; eapply Permutation_in; [symmetry; exact Pp|].
      apply in_or_app; left; exact Hx. }
    assert (q = j) as ->.
    { apply Sorted_unique; [exact (remove_each_Sorted _ _ _ Sp R) | exact Sj |].
      apply remove_each_Permutation in R; rewrite Pp in R.
      eapply Permutation_app_inv_l; symmetry; exact R. }
    split; [exact R|]; split; [apply Sorted_unique; assumption|].
    split; [intros ->; destruct I | exact I].
Qed.

(** [main] compares the suites as multisets: it returns exactly when the
    protractor suites are the jobs suites and the four excluded ones, each
    as often, the script suites are the jobs suites, each as often, and the
    sample suite is among them.  The order of the suites in the two files
    does not matter; a suite that is listed twice in one file and once in
    another does. *)
Theorem main_accepts_iff_same_suites
    (py : imports) (protractor_test_suites yaml_jobs yaml_scripts : list string) :
  get_e2e_suite_names_from_protractor_file py = ret protractor_test_suites ->
  get_e2e_suite_names_from_jobs_travis_yml_file py = ret yaml_jobs ->
  get_e2e_suite_names_from_script_travis_yml_file py = ret yaml_scripts ->
  (main py = (printed_on_success, ret tt) <->
   Permutation protractor_test_suites
               (TEST_SUITES_NOT_RUN_ON_TRAVIS ++ yaml_jobs)%list /\
   Permutation yaml_jobs yaml_scripts /\
   In SAMPLE_TEST_SUITE_THAT_IS_KNOWN_TO_EXIST yaml_jobs).
Proof.
  intros Ep Ej Es; rewrite (main_extracted _ _ _ _ Ep Ej Es).
  rewrite <- (main_checks_sorted_iff _ _ _
                (protractor_extractor_Sorted _ _ Ep)
                (jobs_extractor_Sorted _ _ Ej)
                (script_extractor_Sorted _ _ Es)).
  destruct (main_checks protractor_test_suites yaml_jobs yaml_scripts)
    as [e|[]]; split; intros H; (reflexivity || discriminate H).
Qed.

(** The sample checkout: the five suites of its protractor file are the one
    of the travis file and the four excluded ones. *)
Lemma main_accepts_iff_same_suites_witness :
  main (Sample.checkout Sample.protractor_conf Sample.jobs Sample.script)
    = (printed_on_success, ret tt).
Proof.
  apply (main_accepts_iff_same_suites _
           ["classroomPageFileUploadFeatures"; "explorationImprovementsTab";
            "fileUploadFeatures"; "full"; "topicAndStoryEditorFileUploadFeatures"]
           ["explorationImprovementsTab"] ["explorationImprovementsTab"]).
  - vm_compute; reflexivity.
  - vm_compute; reflexivity.
  - vm_compute; reflexivity.
  - split; [apply sorted_eq_iff; reflexivity|].
    split; [reflexivity | left; reflexivity].
Defined.

(** [main]'s checks end in one of nine ways: they pass, the removal loop
    raises [ValueError], or one of the seven tests raises an [Exception]
    with its message; no other exception comes out of them. *)
Theorem main_checks_outcomes
    (protractor_test_suites yaml_jobs yaml_scripts : list string) :
  main_checks protractor_test_suites yaml_jobs yaml_scripts = ret tt \/
  main_checks protractor_test_suites yaml_jobs yaml_scripts = raise ValueError \/
  exists message,
    main_checks protractor_test_suites yaml_jobs yaml_scripts
      = raise (Exception_ message) /\
    In message [Msg.jobs_empty; Msg.script_empty; Msg.protractor_empty;
                Msg.jobs_sample_missing; Msg.script_sample_missing;
                Msg.protractor_sample_missing; Msg.not_in_sync].
Proof.
  destruct (remove_each TEST_SUITES_NOT_RUN_ON_TRAVIS protractor_test_suites)
    as [e|adjusted] eqn:R.
  - right; left; eapply main_checks_removal_fails; exact R.
  - rewrite (main_checks_after_removal _ _ _ _ R).
    destruct (list_eq yaml_jobs []);
      [right; right; eexists; split; [reflexivity | simpl; tauto]|].
    destruct (list_eq yaml_scripts []);
      [right; right; eexists; split; [reflexivity | simpl; tauto]|].
    destruct (list_eq adjusted []);
      [right; right; eexists; split; [reflexivity | simpl; tauto]|].
    destruct (list_contains _ yaml_jobs); cbn [negb];
      [|right; right; eexists; split; [reflexivity | simpl; tauto]].
    destruct (list_contains _ yaml_scripts); cbn [negb];
      [|right; right; eexists; split; [reflexivity | simpl; tauto]].
    destruct (list_contains _ adjusted); cbn [negb];
      [|right; right; eexists; split; [reflexivity | simpl; tauto]].
    destruct (list_eq adjusted yaml_jobs && list_eq yaml_jobs yaml_scripts);
      [left; reflexivity|].
    right; right; eexists; split; [reflexivity | simpl; tauto].
Qed.

(** ** The extractors: what they read and how they fail *)

(** The dot of the script pattern is a wild card: an invocation in which
    any character but a newline stands where the dot of [.sh] is expected
    gives its suite as well. *)
Theorem script_extractor_reads_any_character_for_dot
    (py : imports) (travis_file_content script : yaml)
    (pre name post : string) (x : ascii) :
  read_and_parse_travis_yml_file py = ret travis_file_content ->
  getitem travis_file_content "script" = ret script ->
  convert_to_bytes py script
    = pre ++ "bash scripts/run_e2e_tests" ++ String x
        ("sh --suite=" ++ String Str.dquote (name ++ String Str.dquote post)) ->
  x <> Str.newline ->
  Str.all (Re.chr_matches suite_name) name = true ->
  exists suites,
    get_e2e_suite_names_from_script_travis_yml_file py = ret suites /\
    In name suites.
Proof.
  intros Et Es E Hx Hname; eexists; split.
  { unfold get_e2e_suite_names_from_script_travis_yml_file.
    rewrite Et; cbn [bind ret]; rewrite Es; cbn [bind ret]; reflexivity. }
  rewrite E; apply sorted_In.
  apply findall_e2e_test_suite_regex_complete; assumption.
Qed.

(** An invocation of [run_e2e_tests_sh], with [_] for the dot. *)
Lemma script_extractor_reads_any_character_for_dot_witness :
  exists suites,
    get_e2e_suite_names_from_script_travis_yml_file
      (Sample.checkout Sample.protractor_conf Sample.jobs
         ("bash scripts/run_e2e_tests_sh --suite=" ++ Sample.quoted "users"))
      = ret suites /\
    In "users" suites.
Proof.
  apply (script_extractor_reads_any_character_for_dot
           (Sample.checkout Sample.protractor_conf Sample.jobs
              ("bash scripts/run_e2e_tests_sh --suite=" ++ Sample.quoted "users"))
           (Sample.travis Sample.jobs
              ("bash scripts/run_e2e_tests_sh --suite=" ++ Sample.quoted "users"))
           (YStr ("bash scripts/run_e2e_tests_sh --suite=" ++
                  Sample.quoted "users"))
           "" "users" "" "_").
  - reflexivity.
  - reflexivity.
  - reflexivity.
  - discriminate.
  - reflexivity.
Defined.

(** The two travis extractors pass a failed read or parse on; on a parsed
    file that is no mapping they raise [TypeError], on a mapping without
    the key they look up [KeyError] with that key; otherwise they return. *)
Theorem travis_extractors_missing_keys (py : imports) :
  (forall e,
      read_and_parse_travis_yml_file py = raise e ->
      get_e2e_suite_names_from_jobs_travis_yml_file py = raise e /\
      get_e2e_suite_names_from_script_travis_yml_file py = raise e) /\
  (forall travis_file_content,
      read_and_parse_travis_yml_file py = ret travis_file_content ->
      ((forall entries, travis_file_content <> YMap entries) ->
       get_e2e_suite_names_from_jobs_travis_yml_file py = raise TypeError /\
       get_e2e_suite_names_from_script_travis_yml_file py = raise TypeError) /\
      (forall entries,
          travis_file_content = YMap entries ->
          (lookup "script" entries = None ->
           get_e2e_suite_names_from_script_travis_yml_file py
             = raise (KeyError "script")) /\
          (forall script,
              lookup "script" entries = Some script ->
              exists suites,
                get_e2e_suite_names_from_script_travis_yml_file py
                  = ret suites) /\
          (lookup "env" entries = None ->
           get_e2e_suite_names_from_jobs_travis_yml_file py
             = raise (KeyError "env")) /\
          (forall env,
              lookup "env" entries = Some env ->
              (forall env_entries, env <> YMap env_entries) ->
              get_e2e_suite_names_from_jobs_travis_yml_file py
                = raise TypeError) /\
          (forall env_entries,
              lookup "env" entries = Some (YMap env_entries) ->
              (lookup "jobs" env_entries = None ->
               get_e2e_suite_names_from_jobs_travis_yml_file py
                 = raise (KeyError "jobs")) /\
              (forall jobs,
                  lookup "jobs" env_entries = Some jobs ->
                  exists suites,
                    get_e2e_suite_names_from_jobs_travis_yml_file py
                      = ret suites)))).
Proof.
  unfold get_e2e_suite_names_from_jobs_travis_yml_file,
    get_e2e_suite_names_from_script_travis_yml_file.
  split.
  - intros e ->; split; reflexivity.
  - intros t ->; cbn [bind ret]; split.
    + intros N; destruct t as [s|items|entries];
        [split; reflexivity | split; reflexivity | destruct (N entries); reflexivity].
    + intros entries ->; cbn [getitem].
      split; [intros ->; reflexivity|].
      split; [intros script ->; eexists; reflexivity|].
      split; [intros ->; reflexivity|].
      split.
      * intros env -> N; cbn [bind ret].
        destruct env as [s|items|env_entries];
          [reflexivity | reflexivity | destruct (N env_entries); reflexivity].
      * intros env_entries ->; cbn [bind ret getitem].
        split; [intros ->; reflexivity | intros jobs ->; eexists; reflexivity].
Qed.

(** The protractor extractor returns exactly when the file is read and has
    a [suites] object with a non-empty body; a failed read is passed on, and
    the one other exception is [IndexError]. *)
Theorem protractor_extractor_returns_iff (py : imports) :
  ((exists suites, get_e2e_suite_names_from_protractor_file py = ret suites) <->
   (exists content,
       read_protractor_conf_file py = ret content /\ has_suite_object content)) /\
  (forall e,
      get_e2e_suite_names_from_protractor_file py = raise e ->
      read_protractor_conf_file py = raise e \/ e = IndexError).
Proof.
  unfold get_e2e_suite_names_from_protractor_file.
  destruct (read_protractor_conf_file py) as [e|content]; cbn [bind ret].
  - split; [split|].
    + intros (suites & H); discriminate H.
    + intros (content & H & _); discriminate H.
    + intros e' [= ->]; left; reflexivity.
  - destruct (Re.findall suite_object_regex content) as [|g l] eqn:F;
      cbn [first_item bind ret raise].
    + split; [split|].
      * intros (suites & H); discriminate H.
      * intros (content' & [= <-] & H).
        apply findall_suite_object_regex_nil in F; contradiction.
      * intros e [= <-]; right; reflexivity.
    + split; [split|].
      * intros _; exists content; split; [reflexivity|].
        assert (I : In g (Re.findall suite_object_regex content))
          by (rewrite F; left; reflexivity).
        apply findall_from_sound in I; destruct I as (a & b & n & -> & M).
        apply suite_object_regex_match_inv in M.
        destruct M as (post & -> & N & Hg & _); exists a, g, post; auto.
      * intros _; eexists; reflexivity.
      * intros e H; discriminate H.
Qed.

(** A file with a [suites] object of one key. *)
Lemma protractor_extractor_returns_iff_witness :
  exists suites,
    get_e2e_suite_names_from_protractor_file
      (Sample.checkout "var suites = { full: [...] };" Sample.jobs Sample.script)
    = ret suites.
Proof.
  apply (proj2 (proj1 (protractor_extractor_returns_iff
                         (Sample.checkout "var suites = { full: [...] };"
                                          Sample.jobs Sample.script)))).
  exists "var suites = { full: [...] };"; split; [reflexivity|].
  exists "var ", " full: [...] ", ";"; repeat split; discriminate.
Defined.

(** A travis file without [script]. *)
Lemma travis_extractors_missing_keys_witness :
  get_e2e_suite_names_from_script_travis_yml_file Faulty.without_keys
    = raise (KeyError "script") /\
  get_e2e_suite_names_from_jobs_travis_yml_file Faulty.without_keys
    = raise (KeyError "jobs").
Proof.
  destruct (proj2 (proj2 (travis_extractors_missing_keys Faulty.without_keys)
                         (YMap [("env", YMap [])]) eq_refl)
                  [("env", YMap [])] eq_refl)
    as (S & _ & _ & _ & J).
  split; [apply S; reflexivity | apply (J []); reflexivity].
Defined.

(** The lists of the sample checkout. *)
Lemma removal_loop_takes_one_of_each_witness :
  Permutation
    ["classroomPageFileUploadFeatures"; "explorationImprovementsTab";
     "fileUploadFeatures"; "full"; "topicAndStoryEditorFileUploadFeatures"]
    (TEST_SUITES_NOT_RUN_ON_TRAVIS ++ ["explorationImprovementsTab"])%list.
Proof.
  apply (proj2 (removal_loop_takes_one_of_each _)
               ["explorationImprovementsTab"]).
  vm_compute; reflexivity.
Defined.

(** [main] calls the protractor extractor, then the jobs extractor, then
    the script extractor, and raises what the first of them that fails
    raises, having printed its first line only; so a protractor file
    without [suites] object gives [IndexError] whatever the travis file
    is. *)
Theorem main_raises_first_extractor_error (py : imports) :
  (forall e,
      get_e2e_suite_names_from_protractor_file py = raise e ->
      main py = (printed_on_error, raise e)) /\
  (forall content,
      read_protractor_conf_file py = ret content ->
      ~ has_suite_object content ->
      main py = (printed_on_error, raise IndexError)) /\
  (forall protractor_test_suites e,
      get_e2e_suite_names_from_protractor_file py = ret protractor_test_suites ->
      get_e2e_suite_names_from_jobs_travis_yml_file py = raise e ->
      main py = (printed_on_error, raise e)) /\
  (forall protractor_test_suites yaml_jobs e,
      get_e2e_suite_names_from_protractor_file py = ret protractor_test_suites ->
      get_e2e_suite_names_from_jobs_travis_yml_file py = ret yaml_jobs ->
      get_e2e_suite_names_from_script_travis_yml_file py = raise e ->
      main py = (printed_on_error, raise e)).
Proof.
  split; [|split; [|split]].
  - intros e E; unfold main; rewrite E; reflexivity.
  - intros content Er H; unfold main, get_e2e_suite_names_from_protractor_file.
    apply findall_suite_object_regex_nil in H.
    rewrite Er; cbn [bind ret]; rewrite H; reflexivity.
  - intros p e Ep Ej; unfold main; rewrite Ep, Ej; reflexivity.
  - intros p j e Ep Ej Es; unfold main; rewrite Ep, Ej, Es; reflexivity.
Qed.

(** A protractor file without object and a travis file that cannot be
    read. *)
Lemma main_raises_first_extractor_error_witness :
  main Faulty.without_object = (printed_on_error, raise IndexError).
Proof.
  apply (proj1 (proj2 (main_raises_first_extractor_error Faulty.without_object))
               "exports.config = {};").
  - reflexivity.
  - apply findall_suite_object_regex_nil; reflexivity.
Defined.

(** ** The names the extractors return *)

Lemma to_lower_upper_snake (c : ascii) :
  Re.chr_matches upper_snake c = true ->
  Str.is_lower (Str.to_lower c) || Ascii.eqb (Str.to_lower c) "_" = true.
Proof.
  destruct c as [[] [] [] [] [] [] [] []]; vm_compute; intros H;
    first [reflexivity | discriminate H].
Qed.

Lemma lower_upper_snake (g : string) :
  Str.all (Re.chr_matches upper_snake) g = true ->
  Str.all (fun c => Str.is_lower c || Ascii.eqb c "_") (Str.lower g) = true.
Proof.
  induction g as [|c g IH]; simpl; [reflexivity|].
  rewrite !andb_true_iff; intros [Hc Hg]; split; [|apply IH; exact Hg].
  apply to_lower_upper_snake; exact Hc.
Qed.

(** Whatever the files hold: a name that the script extractor or the
    protractor extractor returns is made of [a-zA-Z_-], so it has no digit,
    no blank and no quote; and the jobs extractor converts names of [a-z_]
    only. *)
Theorem extracted_names_are_plain (py : imports) :
  (forall suites name,
      get_e2e_suite_names_from_script_travis_yml_file py = ret suites ->
      In name suites ->
      Str.all (Re.chr_matches suite_name) name = true) /\
  (forall suites name,
      get_e2e_suite_names_from_protractor_file py = ret suites ->
      In name suites ->
      Str.all (Re.chr_matches suite_name) name = true) /\
  (forall suites name,
      get_e2e_suite_names_from_jobs_travis_yml_file py = ret suites ->
      In name suites ->
      exists job,
        name = snake_case_to_camel_case py job /\
        Str.all (fun c => Str.is_lower c || Ascii.eqb c "_") job = true).
Proof.
  split; [|split]; intros suites name.
  - unfold get_e2e_suite_names_from_script_travis_yml_file.
    destruct (read_and_parse_travis_yml_file py) as [e|t]; [discriminate|].
    cbn [bind ret]; destruct (getitem t "script") as [e|script]; [discriminate|].
    intros [= <-] H; apply (proj1 (sorted_In _ _)) in H.
    apply findall_e2e_test_suite_regex_sound in H.
    destruct H as (_ & _ & _ & _ & _ & H); exact H.
  - unfold get_e2e_suite_names_from_protractor_file.
    destruct (read_protractor_conf_file py) as [e|content]; [discriminate|].
    cbn [bind ret].
    destruct (first_item (Re.findall suite_object_regex content)) as [e|body];
      [discriminate|].
    intros [= <-] H; apply (proj1 (sorted_In _ _)) in H.
    apply findall_key_regex_sound in H.
    destruct H as (_ & _ & _ & H); exact H.
  - unfold get_e2e_suite_names_from_jobs_travis_yml_file.
    destruct (read_and_parse_travis_yml_file py) as [e|t]; [discriminate|].
    cbn [bind ret]; destruct (getitem t "env") as [e|env]; [discriminate|].
    cbn [bind ret]; destruct (getitem env "jobs") as [e|jobs]; [discriminate|].
    intros [= <-] H; apply (proj1 (sorted_In _ _)) in H.
    apply in_map_iff in H; destruct H as (job & <- & H).
    apply findall_test_regex_sound in H; destruct H as (_ & _ & _ & H).
    exists (Str.lower job); split; [reflexivity | apply lower_upper_snake; exact H].
Qed.

(** The suite that the script of the sample checkout names. *)
Lemma extracted_names_are_plain_witness :
  Str.all (Re.chr_matches suite_name) "explorationImprovementsTab" = true.
Proof.
  apply (proj1 (extracted_names_are_plain
                  (Sample.checkout Sample.protractor_conf Sample.jobs
                                   Sample.script))
               ["explorationImprovementsTab"]).
  - vm_compute; reflexivity.
  - left; reflexivity.
Defined.

(** ** The two files *)

(** [os.path.join] with a second part that is not absolute. *)
Lemma path_join_relative (a b' : string) (d : ascii) :
  d <> "/"%char ->
  path_join a (String d b') =
    match Str.last_char None a with
    | None => String d b'
    | Some x => a ++ (if Ascii.eqb x "/" then "" else "/") ++ String d b'
    end.
Proof.
  intros Hd; unfold path_join; cbn [Str.first_char].
  assert (E : forall (A : Type) (u v : A),
             match d with "/"%char => u | _ => v end = v).
  { intros A u v; destruct d as [[] [] [] [] [] [] [] []]; try reflexivity.
    exfalso; apply Hd; reflexivity. }
  rewrite E; destruct (Str.last_char None a) as [x|]; [|reflexivity].
  destruct x as [[] [] [] [] [] [] [] []]; reflexivity.
Qed.

(** Both files are looked up under the working directory: [.travis.yml] in
    it and [protractor.conf.js] in its [core/tests]; a travis file that
    cannot be read is not parsed. *)
Theorem files_are_under_the_working_directory (py : imports) (c : ascii) :
  Str.last_char None (getcwd py) = Some c ->
  TRAVIS_CI_FILE_PATH py
    = getcwd py ++ (if Ascii.eqb c "/" then "" else "/") ++ ".travis.yml" /\
  PROTRACTOR_CONF_FILE_PATH py
    = getcwd py ++ (if Ascii.eqb c "/" then "" else "/")
      ++ "core/tests/protractor.conf.js" /\
  (forall e,
      open_file_read py (TRAVIS_CI_FILE_PATH py) = raise e ->
      read_and_parse_travis_yml_file py = raise e).
Proof.
  intros H; unfold TRAVIS_CI_FILE_PATH, PROTRACTOR_CONF_FILE_PATH.
  split; [|split].
  - change ".travis.yml" with (String "." "travis.yml").
    rewrite path_join_relative, H by discriminate; reflexivity.
  - change "core" with (String "c" "ore").
    change "tests" with (String "t" "ests").
    change "protractor.conf.js" with (String "p" "rotractor.conf.js").
    rewrite (path_join_relative (getcwd py)), H by discriminate.
    rewrite (path_join_relative _ "ests"), !last_char_append by discriminate.
    cbn [Str.last_char Ascii.eqb Bool.eqb].
    rewrite (path_join_relative _ "rotractor.conf.js"), !last_char_append
      by discriminate.
    cbn [Str.last_char Ascii.eqb Bool.eqb].
    rewrite !append_assoc; reflexivity.
  - intros e E; unfold read_and_parse_travis_yml_file, TRAVIS_CI_FILE_PATH.
    unfold TRAVIS_CI_FILE_PATH in E; rewrite E; reflexivity.
Qed.

(** The sample checkout, under [/oppia]. *)
Lemma files_are_under_the_working_directory_witness :
  TRAVIS_CI_FILE_PATH
    (Sample.checkout Sample.protractor_conf Sample.jobs Sample.script)
  = "/oppia/.travis.yml".
Proof.
  apply (files_are_under_the_working_directory
           (Sample.checkout Sample.protractor_conf Sample.jobs Sample.script)
           "a").
  reflexivity.
Defined.

(** ** Files without suites *)

Lemma findall_test_regex_nil (s : string) :
  ~ Str.occurs "RUN_E2E_TESTS_" s -> Re.findall test_regex s = [].
Proof.
  intros H; apply findall_from_no_match; intros a b ->.
  destruct (Re.match_here _ _ b Re.init) as [[g n]|] eqn:M; [|reflexivity].
  exfalso; apply H; apply test_regex_match_inv in M.
  destruct M as (post & -> & _); exists a, (g ++ String "=" post); reflexivity.
Qed.

Lemma findall_e2e_test_suite_regex_nil (s : string) :
  ~ Str.occurs "bash scripts/run_e2e_tests" s ->
  Re.findall e2e_test_suite_regex s = [].
Proof.
  intros H; apply findall_from_no_match; intros a b ->.
  destruct (Re.match_here _ _ b Re.init) as [[g n]|] eqn:M; [|reflexivity].
  exfalso; apply H; apply e2e_test_suite_regex_match_inv in M.
  destruct M as (x & post & -> & _); eexists a, _; reflexivity.
Qed.

(** A jobs string without [RUN_E2E_TESTS_], a script string without
    [bash scripts/run_e2e_tests] and a [suites] object without colon give
    the empty list, not an exception. *)
Theorem extractors_return_empty_lists (py : imports) :
  (forall travis_file_content env jobs,
      read_and_parse_travis_yml_file py = ret travis_file_content ->
      getitem travis_file_content "env" = ret env ->
      getitem env "jobs" = ret jobs ->
      ~ Str.occurs "RUN_E2E_TESTS_" (convert_to_bytes py jobs) ->
      get_e2e_suite_names_from_jobs_travis_yml_file py = ret []) /\
  (forall travis_file_content script,
      read_and_parse_travis_yml_file py = ret travis_file_content ->
      getitem travis_file_content "script" = ret script ->
      ~ Str.occurs "bash scripts/run_e2e_tests" (convert_to_bytes py script) ->
      get_e2e_suite_names_from_script_travis_yml_file py = ret []) /\
  (forall pre body post,
      read_protractor_conf_file py
        = ret (pre ++ "suites = {" ++ body ++ String "}" post) ->
      ~ Str.occurs "suites = {" pre ->
      body <> "" ->
      Str.all plain body = true ->
      get_e2e_suite_names_from_protractor_file py = ret []).
Proof.
  split; [|split].
  - intros t env jobs Et Ee Ej H.
    unfold get_e2e_suite_names_from_jobs_travis_yml_file.
    rewrite Et; cbn [bind ret]; rewrite Ee; cbn [bind ret]; rewrite Ej.
    cbn [bind ret]; rewrite (findall_test_regex_nil _ H); reflexivity.
  - intros t script Et Es H.
    unfold get_e2e_suite_names_from_script_travis_yml_file.
    rewrite Et; cbn [bind ret]; rewrite Es; cbn [bind ret].
    rewrite (findall_e2e_test_suite_regex_nil _ H); reflexivity.
  - intros pre body post Er Hpre N Hb.
    unfold get_e2e_suite_names_from_protractor_file.
    rewrite Er; cbn [bind ret].
    rewrite (findall_suite_object_regex_first _ _ _ Hpre N);
      [| apply (all_weaken _ _ _ plain_not_closing_brace); exact Hb].
    cbn [bind ret]; unfold Re.findall.
    rewrite (findall_key_regex_tail _ _ Hb); reflexivity.
Qed.

(** A protractor file whose object is a comment, and jobs without
    assignment. *)
Lemma extractors_return_empty_lists_witness :
  get_e2e_suite_names_from_jobs_travis_yml_file
    (Sample.checkout "suites = { /* none */ }" "no jobs" Sample.script)
  = ret [] /\
  get_e2e_suite_names_from_protractor_file
    (Sample.checkout "suites = { /* none */ }" "no jobs" Sample.script)
  = ret [].
Proof.
  destruct (extractors_return_empty_lists
              (Sample.checkout "suites = { /* none */ }" "no jobs"
                               Sample.script))
    as (J & _ & P); split.
  - apply (J (Sample.travis "no jobs" Sample.script)
             (YMap [("global", YStr ""); ("jobs", YStr "no jobs")])
             (YStr "no jobs")); try reflexivity.
    intros (a & b & H).
    destruct a as [|? a]; [discriminate H|]; injection H as _ H.
    destruct a as [|? a]; [discriminate H|]; injection H as _ H.
    destruct a as [|? a]; [discriminate H|]; injection H as _ H.
    destruct a as [|? a]; [discriminate H|]; injection H as _ H.
    destruct a as [|? a]; [discriminate H|]; injection H as _ H.
    destruct a as [|? a]; [discriminate H|]; injection H as _ H.
    destruct a as [|? a]; [discriminate H|]; injection H as _ H.
    destruct a; discriminate H.
  - apply (P "" " /* none */ " ""); try reflexivity.
    + intros (a & b & H); destruct a; discriminate H.
    + discriminate.
Defined.

(** When the travis file gives no jobs, [main] says so, provided the
    protractor list holds the four excluded suites and the script extractor
    returns: the error is the one of the empty jobs list, whatever the
    other two lists are. *)
Theorem main_reports_empty_jobs
    (py : imports) (travis_file_content env jobs : yaml)
    (protractor_test_suites yaml_scripts : list string) :
  get_e2e_suite_names_from_protractor_file py = ret protractor_test_suites ->
  (forall excluded_test,
      In excluded_test TEST_SUITES_NOT_RUN_ON_TRAVIS ->
      In excluded_test protractor_test_suites) ->
  get_e2e_suite_names_from_script_travis_yml_file py = ret yaml_scripts ->
  read_and_parse_travis_yml_file py = ret travis_file_content ->
  getitem travis_file_content "env" = ret env ->
  getitem env "jobs" = ret jobs ->
  ~ Str.occurs "RUN_E2E_TESTS_" (convert_to_bytes py jobs) ->
  main py = (printed_on_error, raise (Exception_ Msg.jobs_empty)).
Proof.
  intros Ep Hall Es Et Ee Ej H.
  assert (J : get_e2e_suite_names_from_jobs_travis_yml_file py = ret []).
  { unfold get_e2e_suite_names_from_jobs_travis_yml_file.
    rewrite Et; cbn [bind ret]; rewrite Ee; cbn [bind ret]; rewrite Ej.
    cbn [bind ret]; rewrite (findall_test_regex_nil _ H); reflexivity. }
  rewrite (main_extracted _ _ _ _ Ep J Es).
  destruct (remove_each_present TEST_SUITES_NOT_RUN_ON_TRAVIS
                                protractor_test_suites) as (q & R);
    [repeat constructor; simpl; intuition discriminate | exact Hall |].
  rewrite (main_checks_after_removal _ _ _ _ R); reflexivity.
Qed.

(** A text that is written out does not hold [sub]: no start fits. *)
Ltac no_occurrence :=
  let a := fresh "a" in
  let b := fresh "b" in
  let H := fresh "H" in
  intros (a & b & H);
  repeat (destruct a as [|? a]; [discriminate H | injection H as _ H]);
  destruct a; discriminate H.

(** The sample checkout with jobs that name no suite. *)
Lemma main_reports_empty_jobs_witness :
  main (Sample.checkout Sample.protractor_conf "no jobs" Sample.script)
    = (printed_on_error, raise (Exception_ Msg.jobs_empty)).
Proof.
  apply (main_reports_empty_jobs
           (Sample.checkout Sample.protractor_conf "no jobs" Sample.script)
           (Sample.travis "no jobs" Sample.script)
           (YMap [("global", YStr ""); ("jobs", YStr "no jobs")])
           (YStr "no jobs")
           ["classroomPageFileUploadFeatures"; "explorationImprovementsTab";
            "fileUploadFeatures"; "full"; "topicAndStoryEditorFileUploadFeatures"]
           ["explorationImprovementsTab"]).
  - vm_compute; reflexivity.
  - simpl; intuition (subst; auto).
  - vm_compute; reflexivity.
  - reflexivity.
  - reflexivity.
  - reflexivity.
  - no_occurrence.
Defined.

(** ** Keys with a digit *)

Lemma digit_is_word_not_name (d : ascii) :
  Str.is_digit d = true ->
  Re.is_word (Some d) = true /\ Re.chr_matches suite_name d = false.
Proof.
  destruct d as [[] [] [] [] [] [] [] []]; vm_compute; intros H;
    first [discriminate H | split; reflexivity].
Qed.

Lemma letter_is_word_and_name (c : ascii) :
  Str.is_lower c || Str.is_upper c || Ascii.eqb c "_" = true ->
  Re.is_word (Some c) = true /\ Re.chr_matches suite_name c = true.
Proof.
  destruct c as [[] [] [] [] [] [] [] []]; vm_compute; intros H;
    first [discriminate H | split; reflexivity].
Qed.

Lemma last_char_is_word (prev : option ascii) (run : string) :
  Re.is_word prev = true ->
  Str.all (fun c => Str.is_lower c || Str.is_upper c || Ascii.eqb c "_") run
    = true ->
  Re.is_word (Str.last_char prev run) = true.
Proof.
  revert prev; induction run as [|c run IH]; intros prev Hp H; [exact Hp|].
  simpl in H; apply andb_true_iff in H; destruct H as [Hc H].
  apply IH; [apply letter_is_word_and_name; exact Hc | exact H].
Qed.

(** A text read into a group does not hold a character that the repeat
    refuses: it lies behind the last such character. *)
Lemma group_behind (cls : ascii -> bool) (a b x y : string) (d : ascii) :
  a ++ b = x ++ String d y ->
  Str.all cls b = true ->
  cls d = false ->
  exists y1, a = x ++ String d y1 /\ y = y1 ++ b.
Proof.
  intros E Hb Hd; revert a E; induction x as [|c x IH]; intros a E.
  - destruct a as [|c' a]; simpl in E.
    + subst b; simpl in Hb; rewrite Hd in Hb; discriminate.
    + injection E as -> E; exists a; auto.
  - destruct a as [|c' a]; simpl in E.
    + subst b; simpl in Hb; rewrite all_append in Hb; simpl in Hb.
      rewrite Hd in Hb; rewrite !andb_false_r in Hb; discriminate.
    + injection E as -> E; destruct (IH a E) as (y1 & -> & ->).
      exists y1; auto.
Qed.

(** A key with a digit is not read.  When letters or [_] follow its last
    digit up to the colon, it puts the empty name in the list instead: the
    one word boundary from which a run of [a-zA-Z_-] reaches the colon is
    the one just before the colon. *)
Theorem protractor_extractor_empty_name_for_digit
    (py : imports) (pre before run after post : string) (d : ascii) :
  read_protractor_conf_file py
    = ret (pre ++ "suites = {"
               ++ (before ++ String d (run ++ String ":" after))
               ++ String "}" post) ->
  ~ Str.occurs "suites = {" pre ->
  Str.all (Re.chr_matches not_closing_brace)
          (before ++ String d (run ++ String ":" after)) = true ->
  Str.is_digit d = true ->
  Str.all (fun c => Str.is_lower c || Str.is_upper c || Ascii.eqb c "_") run
    = true ->
  exists suites,
    get_e2e_suite_names_from_protractor_file py = ret suites /\
    In "" suites /\
    (forall key,
        In key suites ->
        Str.all (fun c => negb (Str.is_digit c)) key = true).
Proof.
  intros Er Hpre Hb Hd Hrun; eexists; split; [|split].
  - unfold get_e2e_suite_names_from_protractor_file.
    rewrite Er; cbn [bind ret].
    rewrite (findall_suite_object_regex_first _ _ _ Hpre); [| |exact Hb].
    + cbn [bind ret]; reflexivity.
    + destruct before; discriminate.
  - destruct (digit_is_word_not_name _ Hd) as [Hw Hn].
    apply sorted_In; unfold Re.findall.
    change (before ++ String d (run ++ String ":" after))
      with (before ++ (String d run) ++ String ":" after).
    rewrite <- append_assoc.
    apply (findall_from_complete key_regex (before ++ String d run)
                                 (String ":" after) 0 None "" 1); [lia | |].
    + apply (key_regex_match _ "" after); [|reflexivity].
      rewrite last_char_append; cbn [Str.last_char String.append Str.first_char].
      rewrite (last_char_is_word _ _ Hw Hrun); reflexivity.
    + intros a b g' n' E Nb M.
      pose proof M as M'; apply key_regex_match_inv in M'.
      destruct M' as (post' & E' & Hg & B & ->).
      destruct (Nat.le_gt_cases (String.length b) (String.length g')) as [L|L];
        [|lia].
      exfalso; pose proof (inside_of_group _ _ _ _ _ E' L Hg) as Hb'.
      symmetry in E; destruct (group_behind _ _ _ _ _ _ E Hb' Hn) as (r1 & -> & ->).
      rewrite all_append in Hrun; apply andb_true_iff in Hrun.
      destruct Hrun as [H1 H2].
      rewrite last_char_append in B; cbn [Str.last_char] in B.
      rewrite (last_char_is_word _ _ Hw H1) in B.
      destruct b as [|c b]; [congruence|]; simpl in H2, B.
      apply andb_true_iff in H2; destruct H2 as [Hc _].
      apply letter_is_word_and_name in Hc; destruct Hc as [Hc _].
      simpl in Hc; rewrite Hc in B; discriminate.
  - intros key H; apply (proj1 (sorted_In _ _)) in H.
    apply findall_key_regex_sound in H; destruct H as (_ & _ & _ & H).
    revert H; apply all_weaken; intros c Hc.
    destruct (Str.is_digit c) eqn:D; [|reflexivity].
    apply digit_is_word_not_name in D; destruct D as [_ D]; congruence.
Qed.

(** The key [e2e]. *)
Lemma protractor_extractor_empty_name_for_digit_witness :
  exists suites,
    get_e2e_suite_names_from_protractor_file
      (Sample.checkout "suites = { e2e: [...] }" Sample.jobs Sample.script)
      = ret suites /\
    In "" suites.
Proof.
  destruct (protractor_extractor_empty_name_for_digit
              (Sample.checkout "suites = { e2e: [...] }" Sample.jobs
                               Sample.script)
              "" " e" "e" " [...] " "" "2" eq_refl)
    as (suites & E & I & _).
  - no_occurrence.
  - reflexivity.
  - reflexivity.
  - reflexivity.
  - exists suites; auto.
Defined.

(** ** Travis fields that are made of assignments and of invocations *)

Lemma prefix_by_length (m b t t' : string) :
  b ++ t = m ++ t' ->
  String.length m <= String.length b ->
  exists b', b = m ++ b'.
Proof.
  revert b; induction m as [|c m IH]; intros b E L; [exists b; reflexivity|].
  destruct b as [|c' b]; simpl in *; [lia|].
  injection E as -> E; destruct (IH b E) as (b' & ->); [lia|].
  exists b'; reflexivity.
Qed.

Lemma findall_test_regex_gap (prev : option ascii) (gap rest : string) :
  ~ Str.occurs "RUN_E2E_TESTS_" gap ->
  Re.findall_from test_regex 0 prev (gap ++ "RUN_E2E_TESTS_" ++ rest) =
    Re.findall_from test_regex 0 (Str.last_char prev gap)
                    ("RUN_E2E_TESTS_" ++ rest).
Proof.
  intros H; apply findall_from_unmatched; intros a b -> Hb.
  destruct (Re.match_here _ _ _ Re.init) as [[g n]|] eqn:M; [|reflexivity].
  exfalso; apply H.
  pose proof (test_regex_no_overlap _ _ _ _ _ Hb M) as L.
  apply test_regex_match_inv in M; destruct M as (post & E & _ & ->).
  destruct (prefix_by_length "RUN_E2E_TESTS_" b _ _ E) as (b' & ->).
  - rewrite length_append in L; simpl in *; lia.
  - exists a, b'; reflexivity.
Qed.

Lemma findall_from_test_regex_nil (prev : option ascii) (s : string) :
  ~ Str.occurs "RUN_E2E_TESTS_" s -> Re.findall_from test_regex 0 prev s = [].
Proof.
  intros H; apply findall_from_no_match; intros a b ->.
  destruct (Re.match_here _ _ b Re.init) as [[g n]|] eqn:M; [|reflexivity].
  exfalso; apply H; apply test_regex_match_inv in M.
  destruct M as (post & -> & _); exists a, (g ++ String "=" post); reflexivity.
Qed.

Lemma findall_test_regex_jobs_text (entries : list (string * string))
      (tail : string) (prev : option ascii) :
  Forall (fun entry =>
            ~ Str.occurs "RUN_E2E_TESTS_" (fst entry) /\
            Str.all (Re.chr_matches upper_snake) (snd entry) = true) entries ->
  ~ Str.occurs "RUN_E2E_TESTS_" tail ->
  Re.findall_from test_regex 0 prev (jobs_text entries tail) = map snd entries.
Proof.
  intros He Ht; revert prev; induction He as [|[gap name] entries [Hg Hn] He IH];
    intros prev; cbn [jobs_text fold_right fst snd map].
  - apply findall_from_test_regex_nil; exact Ht.
  - cbn [fst snd] in Hg, Hn; fold (jobs_text entries tail).
    rewrite findall_test_regex_gap by exact Hg.
    change (String "=" (jobs_text entries tail))
      with ("=" ++ jobs_text entries tail).
    rewrite <- (append_assoc name), <- (append_assoc "RUN_E2E_TESTS_").
    rewrite (findall_from_match _ _ _ _ name);
      [rewrite IH; reflexivity | discriminate |].
    rewrite !append_assoc; apply test_regex_match; exact Hn.
Qed.

Lemma invocation_assoc (name rest : string) :
  "bash scripts/run_e2e_tests.sh --suite=" ++
    String Str.dquote (name ++ String Str.dquote rest)
  = ("bash scripts/run_e2e_tests.sh --suite=" ++
       String Str.dquote (name ++ String Str.dquote "")) ++ rest.
Proof. simpl; rewrite append_assoc; reflexivity. Qed.

Lemma findall_e2e_test_suite_regex_gap (prev : option ascii) (gap rest : string) :
  ~ Str.occurs "bash scripts/run_e2e_tests" gap ->
  Re.findall_from e2e_test_suite_regex 0 prev
                  (gap ++ "bash scripts/run_e2e_tests.sh --suite=" ++ rest) =
    Re.findall_from e2e_test_suite_regex 0 (Str.last_char prev gap)
                    ("bash scripts/run_e2e_tests.sh --suite=" ++ rest).
Proof.
  intros H; apply findall_from_unmatched; intros a b -> Hb.
  destruct (Re.match_here _ _ _ Re.init) as [[g n]|] eqn:M; [|reflexivity].
  exfalso; apply H.
  pose proof (e2e_test_suite_regex_no_overlap
                _ b ("scripts/run_e2e_tests.sh --suite=" ++ rest) _ _ Hb M) as L.
  apply e2e_test_suite_regex_match_inv in M.
  destruct M as (x & post & E & _ & _ & ->).
  destruct (prefix_by_length "bash scripts/run_e2e_tests" b _ _ E) as (b' & ->).
  - simpl in *; lia.
  - exists a, b'; reflexivity.
Qed.

Lemma findall_from_e2e_test_suite_regex_nil (prev : option ascii) (s : string) :
  ~ Str.occurs "bash scripts/run_e2e_tests" s ->
  Re.findall_from e2e_test_suite_regex 0 prev s = [].
Proof.
  intros H; apply findall_from_no_match; intros a b ->.
  destruct (Re.match_here _ _ b Re.init) as [[g n]|] eqn:M; [|reflexivity].
  exfalso; apply H; apply e2e_test_suite_regex_match_inv in M.
  destruct M as (x & post & -> & _); eexists a, _; reflexivity.
Qed.

Lemma findall_e2e_test_suite_regex_script_text
      (entries : list (string * string)) (tail : string) (prev : option ascii) :
  Forall (fun entry =>
            ~ Str.occurs "bash scripts/run_e2e_tests" (fst entry) /\
            Str.all (Re.chr_matches suite_name) (snd entry) = true) entries ->
  ~ Str.occurs "bash scripts/run_e2e_tests" tail ->
  Re.findall_from e2e_test_suite_regex 0 prev (script_text entries tail)
    = map snd entries.
Proof.
  intros He Ht; revert prev; induction He as [|[gap name] entries [Hg Hn] He IH];
    intros prev; cbn [script_text fold_right fst snd map].
  - apply findall_from_e2e_test_suite_regex_nil; exact Ht.
  - cbn [fst snd] in Hg, Hn; fold (script_text entries tail).
    rewrite findall_e2e_test_suite_regex_gap by exact Hg.
    rewrite invocation_assoc.
    rewrite (findall_from_match _ _ _ _ name);
      [rewrite IH; reflexivity | discriminate |].
    rewrite <- invocation_assoc.
    etransitivity;
      [apply (e2e_test_suite_regex_match _ "." name); [discriminate | exact Hn]|].
    do 2 f_equal; simpl; rewrite length_append; simpl; lia.
Qed.

(** For a jobs string that is made of assignments with names of [A-Z_],
    between texts without [RUN_E2E_TESTS_], the jobs extractor returns the
    converted names, one for each assignment, sorted: a name that is
    assigned twice is listed twice. *)
Theorem jobs_extractor_on_assignments
    (py : imports) (travis_file_content env jobs : yaml)
    (entries : list (string * string)) (tail : string) :
  read_and_parse_travis_yml_file py = ret travis_file_content ->
  getitem travis_file_content "env" = ret env ->
  getitem env "jobs" = ret jobs ->
  convert_to_bytes py jobs = jobs_text entries tail ->
  Forall (fun entry =>
            ~ Str.occurs "RUN_E2E_TESTS_" (fst entry) /\
            Str.all (Re.chr_matches upper_snake) (snd entry) = true) entries ->
  ~ Str.occurs "RUN_E2E_TESTS_" tail ->
  get_e2e_suite_names_from_jobs_travis_yml_file py
    = ret (Str.sorted
             (map (fun entry =>
                     snake_case_to_camel_case py (Str.lower (snd entry)))
                  entries)).
Proof.
  intros Et Ee Ej E He Ht.
  unfold get_e2e_suite_names_from_jobs_travis_yml_file.
  rewrite Et; cbn [bind ret]; rewrite Ee; cbn [bind ret]; rewrite Ej.
  cbn [bind ret]; rewrite E; unfold Re.findall.
  rewrite (findall_test_regex_jobs_text _ _ _ He Ht), map_map; reflexivity.
Qed.

(** Two assignments of the sample suite. *)
Lemma jobs_extractor_on_assignments_witness :
  get_e2e_suite_names_from_jobs_travis_yml_file
    (Sample.checkout Sample.protractor_conf
       "- RUN_E2E_TESTS_USERS=true RUN_E2E_TESTS_USERS=false" Sample.script)
  = ret ["users"; "users"].
Proof.
  apply (jobs_extractor_on_assignments
           (Sample.checkout Sample.protractor_conf
              "- RUN_E2E_TESTS_USERS=true RUN_E2E_TESTS_USERS=false"
              Sample.script)
           (Sample.travis "- RUN_E2E_TESTS_USERS=true RUN_E2E_TESTS_USERS=false"
                          Sample.script)
           (YMap [("global", YStr "");
                  ("jobs",
                   YStr "- RUN_E2E_TESTS_USERS=true RUN_E2E_TESTS_USERS=false")])
           (YStr "- RUN_E2E_TESTS_USERS=true RUN_E2E_TESTS_USERS=false")
           [("- ", "USERS"); ("true ", "USERS")] "false").
  - reflexivity.
  - reflexivity.
  - reflexivity.
  - reflexivity.
  - repeat constructor; no_occurrence.
  - no_occurrence.
Defined.

(** For a script string that is made of invocations with quoted names of
    [a-zA-Z_-], between texts without [bash scripts/run_e2e_tests], the
    script extractor returns the names, one for each invocation, sorted. *)
Theorem script_extractor_on_invocations
    (py : imports) (travis_file_content script : yaml)
    (entries : list (string * string)) (tail : string) :
  read_and_parse_travis_yml_file py = ret travis_file_content ->
  getitem travis_file_content "script" = ret script ->
  convert_to_bytes py script = script_text entries tail ->
  Forall (fun entry =>
            ~ Str.occurs "bash scripts/run_e2e_tests" (fst entry) /\
            Str.all (Re.chr_matches suite_name) (snd entry) = true) entries ->
  ~ Str.occurs "bash scripts/run_e2e_tests" tail ->
  get_e2e_suite_names_from_script_travis_yml_file py
    = ret (Str.sorted (map snd entries)).
Proof.
  intros Et Es E He Ht.
  unfold get_e2e_suite_names_from_script_travis_yml_file.
  rewrite Et; cbn [bind ret]; rewrite Es; cbn [bind ret]; rewrite E.
  unfold Re.findall.
  rewrite (findall_e2e_test_suite_regex_script_text _ _ _ He Ht); reflexivity.
Qed.

(** The script of the sample checkout. *)
Lemma script_extractor_on_invocations_witness :
  get_e2e_suite_names_from_script_travis_yml_file
    (Sample.checkout Sample.protractor_conf Sample.jobs Sample.script)
  = ret ["explorationImprovementsTab"].
Proof.
  apply (script_extractor_on_invocations
           (Sample.checkout Sample.protractor_conf Sample.jobs Sample.script)
           (Sample.travis Sample.jobs Sample.script) (YStr Sample.script)
           [("- if [ $RUN_E2E_TESTS_EXPLORATION_IMPROVEMENTS_TAB == 'true' ]; then ",
             "explorationImprovementsTab")]
           " --prod_env; fi").
  - reflexivity.
  - reflexivity.
  - reflexivity.
  - repeat constructor; no_occurrence.
  - no_occurrence.
Defined.

(** ** The files as a whole *)

(** On files of the expected form [main] decides whether the suites of the
    three places are the same: the keys of the [suites] object on one side,
    the converted names of the assignments and the four excluded suites on
    the other, each as often; the names of the invocations and those of the
    assignments, each as often; and the sample suite among them. *)
Theorem main_on_files_of_the_expected_form
    (py : imports) (travis_file_content env jobs script : yaml)
    (pre post : string)
    (keys assignments invocations : list (string * string))
    (keys_tail assignments_tail invocations_tail : string) :
  read_protractor_conf_file py
    = ret (pre ++ "suites = {" ++ object_body keys keys_tail
               ++ String "}" post) ->
  ~ Str.occurs "suites = {" pre ->
  well_formed keys keys_tail = true ->
  object_body keys keys_tail <> "" ->
  read_and_parse_travis_yml_file py = ret travis_file_content ->
  getitem travis_file_content "env" = ret env ->
  getitem env "jobs" = ret jobs ->
  getitem travis_file_content "script" = ret script ->
  convert_to_bytes py jobs = jobs_text assignments assignments_tail ->
  Forall (fun entry =>
            ~ Str.occurs "RUN_E2E_TESTS_" (fst entry) /\
            Str.all (Re.chr_matches upper_snake) (snd entry) = true)
         assignments ->
  ~ Str.occurs "RUN_E2E_TESTS_" assignments_tail ->
  convert_to_bytes py script = script_text invocations invocations_tail ->
  Forall (fun entry =>
            ~ Str.occurs "bash scripts/run_e2e_tests" (fst entry) /\
            Str.all (Re.chr_matches suite_name) (snd entry) = true)
         invocations ->
  ~ Str.occurs "bash scripts/run_e2e_tests" invocations_tail ->
  (main py = (printed_on_success, ret tt) <->
   Permutation
     (map snd keys)
     (TEST_SUITES_NOT_RUN_ON_TRAVIS ++
      map (fun entry => snake_case_to_camel_case py (Str.lower (snd entry)))
          assignments)%list /\
   Permutation
     (map (fun entry => snake_case_to_camel_case py (Str.lower (snd entry)))
          assignments)
     (map snd invocations) /\
   In SAMPLE_TEST_SUITE_THAT_IS_KNOWN_TO_EXIST
      (map (fun entry => snake_case_to_camel_case py (Str.lower (snd entry)))
           assignments)).
Proof.
  intros Er Hpre W N Et Ee Ej Es Ejobs Ha Hat Escript Hi Hit.
  set (J := map (fun entry => snake_case_to_camel_case py (Str.lower (snd entry)))
                assignments).
  assert (Ep : get_e2e_suite_names_from_protractor_file py
               = ret (Str.sorted (map snd keys))).
  { unfold get_e2e_suite_names_from_protractor_file.
    rewrite Er; cbn [bind ret].
    rewrite (findall_suite_object_regex_first _ _ _ Hpre N
               (object_body_no_closing_brace _ _ W)).
    cbn [bind ret]; unfold Re.findall.
    rewrite findall_key_regex_object_body by (reflexivity || exact W).
    reflexivity. }
  assert (Ej' : get_e2e_suite_names_from_jobs_travis_yml_file py
                = ret (Str.sorted J)).
  { unfold get_e2e_suite_names_from_jobs_travis_yml_file.
    rewrite Et; cbn [bind ret]; rewrite Ee; cbn [bind ret]; rewrite Ej.
    cbn [bind ret]; rewrite Ejobs; unfold Re.findall.
    rewrite (findall_test_regex_jobs_text _ _ _ Ha Hat), map_map; reflexivity. }
  assert (Es' : get_e2e_suite_names_from_script_travis_yml_file py
                = ret (Str.sorted (map snd invocations))).
  { unfold get_e2e_suite_names_from_script_travis_yml_file.
    rewrite Et; cbn [bind ret]; rewrite Es; cbn [bind ret]; rewrite Escript.
    unfold Re.findall.
    rewrite (findall_e2e_test_suite_regex_script_text _ _ _ Hi Hit).
    reflexivity. }
  rewrite (main_extracted _ _ _ _ Ep Ej' Es').
  assert (Q : main_checks (Str.sorted (map snd keys)) (Str.sorted J)
                          (Str.sorted (map snd invocations)) = ret tt <->
              Permutation (map snd keys) (TEST_SUITES_NOT_RUN_ON_TRAVIS ++ J)%list /\
              Permutation J (map snd invocations) /\
              In SAMPLE_TEST_SUITE_THAT_IS_KNOWN_TO_EXIST J).
  { rewrite main_checks_sorted_iff by apply sorted_Sorted.
    rewrite <- (sorted_Permutation (map snd keys)).
    rewrite <- (sorted_Permutation J).
    rewrite <- (sorted_Permutation (map snd invocations)).
    reflexivity. }
  rewrite <- Q.
  destruct (main_checks _ _ _) as [e|[]]; split; intros H;
    (reflexivity || discriminate H).
Qed.

(** The sample checkout. *)
Lemma main_on_files_of_the_expected_form_witness :
  main (Sample.checkout Sample.protractor_conf Sample.jobs Sample.script)
    = (printed_on_success, ret tt).
Proof.
  apply (main_on_files_of_the_expected_form
           (Sample.checkout Sample.protractor_conf Sample.jobs Sample.script)
           (Sample.travis Sample.jobs Sample.script)
           (YMap [("global", YStr ""); ("jobs", YStr Sample.jobs)])
           (YStr Sample.jobs) (YStr Sample.script)
           "var " ";"
           [(" ", "classroomPageFileUploadFeatures");
            (" [...], ", "explorationImprovementsTab");
            (" [...], ", "fileUploadFeatures");
            (" [...], ", "full");
            (" [...], ", "topicAndStoryEditorFileUploadFeatures")]
           [("- ", "EXPLORATION_IMPROVEMENTS_TAB")]
           [("- if [ $RUN_E2E_TESTS_EXPLORATION_IMPROVEMENTS_TAB == 'true' ]; then ",
             "explorationImprovementsTab")]
           " [...] " "true" " --prod_env; fi").
  - reflexivity.
  - no_occurrence.
  - reflexivity.
  - discriminate.
  - reflexivity.
  - reflexivity.
  - reflexivity.
  - reflexivity.
  - reflexivity.
  - repeat constructor; no_occurrence.
  - no_occurrence.
  - reflexivity.
  - repeat constructor; no_occurrence.
  - no_occurrence.
  - split; [apply sorted_eq_iff; reflexivity|].
    split; [reflexivity | left; reflexivity].
Defined.
